(** * The infoview's goal-state synchronisation core

    A shallow embedding of the stateful parts of the Lean 4 infoview
    ([info.tsx], [messages.tsx] and the tagged-text display loop):

    - [TaggedTextTree]: the recursive display loop [InteractiveTaggedText];
    - [Lazy]: the memoising wrapper [lazy];
    - [Diagnostics]: the [publishDiagnostics] map update and the
      raw/interactive diagnostics fallback of [AllMessages] and
      [useMessagesForFile];
    - [Throttle]: the hook [useDelayedThrottled], as a timed state machine;
    - [Info]: the component [InfoAux], as a state machine over the events a
      running infoview receives (cursor moves, timer expiry, server replies).

    The browser's event loop is single-threaded: every handler runs to
    completion before the next one starts, so each handler is one step
    function on an explicit state. *)

From Stdlib Require Import ZArith List String Ascii Lia Bool.
From Stdlib Require Import Sorted Permutation.
From stdpp Require Import gmap strings list pretty.
Import ListNotations.

Set Warnings "-register-all".

Local Open Scope string_scope.
Local Open Scope list_scope.
Local Open Scope nat_scope.

(** ** Shared data *)

(** [DocumentPosition]: [{uri, line, character}], compared structurally by the
    effect dependencies [[pos.uri, pos.line, pos.character]]. *)
Record DocumentPosition := mkPos {
  uri : string;
  line : nat;
  character : nat
}.

#[global] Instance DocumentPosition_eq_dec : EqDecision DocumentPosition.
Proof. solve_decision. Defined.

(** A computation that either returns or throws a JavaScript [Error] with the
    given message. *)
Inductive result (A : Type) : Type :=
| Ok (a : A)
| Throw (msg : string).
Arguments Ok {A} a.
Arguments Throw {A} msg.

(** * Part I: the model *)

(** ** TaggedText display loop *)

Module TaggedTextTree.

Section Render.

(** [T] is the tag payload, [R] what the tag component [InnerTagUi] renders
    to. *)
Context {T R : Type}.

(** [TaggedText<T>] is [{text} | {append} | {tag: [T, TaggedText<T>]}].  The
    loop tests the three keys at run time and has a fourth branch for an
    object carrying none of them: that object is [malformed]. *)
Inductive TaggedText : Type :=
| text (s : string)
| append (l : list TaggedText)
| tag (t : T) (x : TaggedText)
| malformed.

(** What a fragment flattens to: literal text and the elements the tag
    component produced, in document order. *)
Inductive Piece : Type :=
| PText (s : string)
| PTag (r : R).

(** The message of the [Error] thrown in the last branch; an object
    interpolated into a template string prints as [[object Object]]. *)
Definition malformed_message : string :=
  "malformed 'TaggedText': '[object Object]'".

(** Children of a fragment are rendered first to last; the first child that
    throws aborts the render. *)
Fixpoint collect (rs : list (result (list Piece))) : result (list Piece) :=
  match rs with
  | [] => Ok []
  | Ok r :: rs' =>
      match collect rs' with
      | Ok out => Ok (r ++ out)
      | Throw m => Throw m
      end
  | Throw m :: _ => Throw m
  end.

Variable InnerTagUi : DocumentPosition -> TaggedText -> T -> R.

Fixpoint InteractiveTaggedText (pos : DocumentPosition) (fmt : TaggedText)
  : result (list Piece) :=
  match fmt with
  | text s => Ok [PText s]
  | append l =>
      (fix children (l : list TaggedText) : result (list Piece) :=
         match l with
         | [] => Ok []
         | a :: l' =>
             match InteractiveTaggedText pos a with
             | Ok r =>
                 match children l' with
                 | Ok out => Ok (r ++ out)
                 | Throw m => Throw m
                 end
             | Throw m => Throw m
             end
         end) l
  | tag t x => Ok [PTag (InnerTagUi pos x t)]
  | malformed => Throw malformed_message
  end.

(** Induction on trees, with the hypothesis for every child of a fragment. *)
Fixpoint TaggedText_forall_ind (P : TaggedText -> Prop)
    (Ht : forall s, P (text s))
    (Ha : forall l, Forall P l -> P (append l))
    (Hg : forall t x, P x -> P (tag t x))
    (Hm : P malformed) (x : TaggedText) {struct x} : P x :=
  match x with
  | text s => Ht s
  | append l =>
      Ha l ((fix all (l : list TaggedText) : Forall P l :=
               match l with
               | [] => @List.Forall_nil _ P
               | a :: l' =>
                   @List.Forall_cons _ P a l'
                     (TaggedText_forall_ind P Ht Ha Hg Hm a) (all l')
               end) l)
  | tag t y => Hg t y (TaggedText_forall_ind P Ht Ha Hg Hm y)
  | malformed => Hm
  end.

End Render.

Arguments TaggedText : clear implicits.
Arguments Piece : clear implicits.

End TaggedTextTree.

(** ** The memoising wrapper [lazy] *)

Module Lazy.

Section Lazy.

(** A thunk [f : () => T] may read and change the rest of the program, the
    world [W], so two invocations need not behave alike. *)
Context {W T : Type}.

(** What one invocation of the thunk does, as the wrapper sees it: it returns
    a value, it throws, or it calls the wrapper itself while it runs and goes
    on with what that call gave it (a value or an exception). *)
Inductive Run : Type :=
| Return (t : T) (w : W)
| Raise (msg : string) (w : W)
| Reenter (w : W) (k : result T -> W -> Run).

Variable f : W -> Run.

(** The wrapper's private variable [state : {t: T} | undefined], with the
    world and the number of times [f] has been entered. *)
Record cell : Type := mkCell {
  state : option T;
  world : W;
  invocations : nat
}.

(** [lazy(f)]: a fresh wrapper, [state] still undefined. *)
Definition lazy (w : W) : cell :=
  {| state := None; world := w; invocations := 0 |}.

(** One call of the wrapper: [if (!state) state = {t: f()}; return state.t].
    [!state] tests the box [{t: ...}] and not its content: a box is an object,
    hence truthy whatever [t] is.  The box is assigned only once [f()] has
    returned: until then [state] is as it was, also for a call made by the
    thunk itself, and an exception of [f] leaves the wrapper through the
    assignment.  [fuel] bounds how deep the thunk may call back into the
    wrapper; [None] is a recursion that does not end within it. *)
Fixpoint call (fuel : nat) (c : cell) : option (result T * cell) :=
  match state c with
  | Some t => Some (Ok t, c)
  | None =>
      match fuel with
      | 0 => None
      | S fuel' =>
          (fix exec (r : Run) (c : cell) {struct r} : option (result T * cell) :=
             match r with
             | Return t w =>
                 Some (Ok t, {| state := Some t; world := w;
                                invocations := invocations c |})
             | Raise m w =>
                 Some (Throw m, {| state := state c; world := w;
                                   invocations := invocations c |})
             | Reenter w k =>
                 match call fuel' {| state := state c; world := w;
                                     invocations := invocations c |} with
                 | Some (r', c') => exec (k r' (world c')) c'
                 | None => None
                 end
             end)
            (f (world c))
            {| state := None; world := world c;
               invocations := S (invocations c) |}
      end
  end.

(** The rest of the program runs between two calls. *)
Definition disturb (g : W -> W) (c : cell) : cell :=
  {| state := state c; world := g (world c); invocations := invocations c |}.

(** A sequence of calls, the [i]-th preceded by the world change [g_i];
    returns what each call gave, first call first. *)
Fixpoint calls (fuel : nat) (gs : list (W -> W)) (c : cell)
  : option (list (result T) * cell) :=
  match gs with
  | [] => Some ([], c)
  | g :: gs' =>
      match call fuel (disturb g c) with
      | Some (r, c') =>
          match calls fuel gs' c' with
          | Some (rs, c'') => Some (r :: rs, c'')
          | None => None
          end
      | None => None
      end
  end.


End Lazy.

Arguments Run : clear implicits.
Arguments cell : clear implicits.

(** Thunks over a world that counts their invocations. *)


(** Throws when first invoked and returns afterwards. *)
Definition flaky (w : nat) : Run nat string :=
  match w with
  | 0 => Raise "boom" 1
  | S _ => Return "value" (S w)
  end.


End Lazy.

(** ** Diagnostics *)

Module Diagnostics.

Record Position : Type := mkPosition { p_line : nat; p_character : nat }.

Record Range : Type := mkRange { r_start : Position; r_end : Position }.

(** A raw diagnostic as pushed by the server ([LeanDiagnostic]: an LSP
    [Diagnostic] with an optional [fullRange]); the message is plain text. *)
Record Diagnostic : Type := mkDiagnostic {
  range : Range;
  fullRange : option Range;
  severity : option nat;
  message : string
}.

Section Interactive.

(** The tag payload of interactive messages. *)
Context {MsgEmbed : Type}.

Record InteractiveDiagnostic : Type := mkInteractive {
  i_range : Range;
  i_fullRange : option Range;
  i_severity : option nat;
  i_message : TaggedTextTree.TaggedText MsgEmbed
}.

(** [d => ({ ...(d as LeanDiagnostic), message: { text: d.message } })] *)
Definition toInteractive (d : Diagnostic) : InteractiveDiagnostic :=
  {| i_range := range d;
     i_fullRange := fullRange d;
     i_severity := severity d;
     i_message := TaggedTextTree.text (message d) |}.

(** How the promise of [getInteractiveDiagnostics] settles: with a list, or
    rejected with an error whose [code] may be missing. *)
Inductive Fetched : Type :=
| Resolved (diags : list InteractiveDiagnostic)
| Rejected (code : option Z).

(** [dc.get(uri) || []]: an absent entry reads as the empty list (an array,
    even an empty one, is truthy). *)
Definition rawFor (dc : gmap string (list Diagnostic)) (u : string)
  : list Diagnostic :=
  match dc !! u with
  | Some ds => ds
  | None => []
  end.

(** The error code of "content modified", written [-32801] in the source. *)
Definition ContentModified : Z := (-32801)%Z.

(** Whether the [catch] block writes to the console. *)
Definition logsError (code : option Z) : bool :=
  match code with
  | Some c => negb (c =? ContentModified)%Z
  | None => true
  end.

(** The thunk of [AllMessages] ([iDiags0]), called with the raw list
    [diags0]: the list it resolves to and whether it logged an error.
    [hasWidgetsV1] is the value of [sv?.hasWidgetsV1()]; [fetch] is how the
    request settles if it is made. *)
Definition iDiags0 (hasWidgetsV1 : bool) (fetch : Fetched)
    (diags0 : list Diagnostic) : list InteractiveDiagnostic * bool :=
  if hasWidgetsV1 then
    match fetch with
    | Resolved diags =>
        if (0 <? length diags)%nat then (diags, false)
        else (map toInteractive diags0, false)
    | Rejected code => (map toInteractive diags0, logsError code)
    end
  else (map toInteractive diags0, false).

(** [updateDiags] of [useMessagesForFile]: the successive arguments of
    [setDiags], in program order. *)
Definition updateDiags (hasWidgetsV1 : bool) (fetch : Fetched)
    (lspDiags : gmap string (list Diagnostic)) (u : string)
  : list (list InteractiveDiagnostic) :=
  [map toInteractive (rawFor lspDiags u)] ++
  (if hasWidgetsV1 then
     match fetch with
     | Resolved diags => if (0 <? length diags)%nat then [diags] else []
     | Rejected _ => []
     end
   else []).

(** The state [diags] once [updateDiags] has run to its end, starting from
    [old]. *)
Definition diagsAfter (old : list InteractiveDiagnostic)
    (writes : list (list InteractiveDiagnostic)) : list InteractiveDiagnostic :=
  fold_left (fun _ w => w) writes old.

End Interactive.

Arguments InteractiveDiagnostic : clear implicits.
Arguments Fetched : clear implicits.

(** [PublishDiagnosticsParams] *)
Record PublishDiagnosticsParams : Type := mkParams {
  params_uri : string;
  params_diagnostics : list Diagnostic
}.

(** The state update of [WithLspDiagnosticsContext]:
    [diags => new Map(diags).set(params.uri, params.diagnostics)]. *)
Definition publishDiagnostics (params : PublishDiagnosticsParams)
    (diags : gmap string (list Diagnostic)) : gmap string (list Diagnostic) :=
  <[params_uri params := params_diagnostics params]> diags.

End Diagnostics.

(** ** The hook [useDelayedThrottled] *)

Module Throttle.

Section Hook.

(** [A] is the callback: a closure of the component that rendered it. *)
Context {A : Type}.

(** The two refs of the hook, which live as long as the component, and the
    part of the environment its closures touch: the timers set with
    [setTimeout] (absolute deadlines, in registration order) and the clock,
    both in milliseconds. *)
Record hook : Type := mkHook {
  waiting : bool;
  callbackRef : option A;
  timers : list nat;
  now : nat
}.

(** First render: [useRef(false)], [useRef()]. *)
Definition mount (t0 : nat) : hook :=
  {| waiting := false; callbackRef := None; timers := []; now := t0 |}.

(** The hook body, run at every render: [callbackRef.current = cb]. *)
Definition render (cb : A) (h : hook) : hook :=
  {| waiting := waiting h; callbackRef := Some cb;
     timers := timers h; now := now h |}.

(** The returned trigger, as created by a render whose interval was [ms]. *)
Definition trigger (ms : nat) (h : hook) : hook :=
  if waiting h then h
  else {| waiting := true; callbackRef := callbackRef h;
          timers := timers h ++ [now h + ms]; now := now h |}.

(** The function given to [setTimeout]: clears [waiting] and hands back the
    callback to invoke, [callbackRef.current] if it is set. *)
Definition timeout (h : hook) : hook * option A :=
  ({| waiting := false; callbackRef := callbackRef h;
      timers := timers h; now := now h |},
   callbackRef h).

(** The first timer whose deadline has passed, removed from the queue. *)
Fixpoint takeDue (t : nat) (ds : list nat) : option (list nat) :=
  match ds with
  | [] => None
  | d :: ds' =>
      if d <=? t then Some ds'
      else match takeDue t ds' with
           | Some rest => Some (d :: rest)
           | None => None
           end
  end.

(** The event loop runs a due timer, if there is one. *)
Definition fire (h : hook) : hook * option A :=
  match takeDue (now h) (timers h) with
  | Some rest =>
      timeout {| waiting := waiting h; callbackRef := callbackRef h;
                 timers := rest; now := now h |}
  | None => (h, None)
  end.

(** Time passes. *)
Definition advance (d : nat) (h : hook) : hook :=
  {| waiting := waiting h; callbackRef := callbackRef h;
     timers := timers h; now := now h + d |}.

(** *** The hook under an arbitrary caller *)

(** What can happen to a mounted hook. *)
Inductive event : Type :=
| Render (cb : A)   (* the component renders, supplying the action [cb] *)
| Call (ms : nat)   (* somebody calls a trigger made with interval [ms] *)
| Advance (d : nat) (* [d] milliseconds pass *)
| Fire              (* the event loop looks for a due timer *)
| Settle.           (* the promise of a running action settles *)

(** The hook together with a record of the actions it invoked: when and which
    one, newest first, and how many of them are still running. *)
Record sim : Type := mkSim {
  the_hook : hook;
  started : list (nat * A);
  running : nat
}.

Definition start (t0 : nat) : sim :=
  {| the_hook := mount t0; started := []; running := 0 |}.

Definition step (s : sim) (e : event) : sim :=
  match e with
  | Render cb =>
      {| the_hook := render cb (the_hook s);
         started := started s; running := running s |}
  | Call ms =>
      {| the_hook := trigger ms (the_hook s);
         started := started s; running := running s |}
  | Advance d =>
      {| the_hook := advance d (the_hook s);
         started := started s; running := running s |}
  | Fire =>
      match fire (the_hook s) with
      | (h', Some cb) =>
          {| the_hook := h'; started := (now h', cb) :: started s;
             running := S (running s) |}
      | (h', None) =>
          {| the_hook := h'; started := started s; running := running s |}
      end
  | Settle =>
      {| the_hook := the_hook s; started := started s;
         running := pred (running s) |}
  end.

Definition run (s : sim) (es : list event) : sim := fold_left step es s.

(** The action most recently supplied by a render. *)
Definition latest (es : list event) (init : option A) : option A :=
  fold_left (fun cur e => match e with Render cb => Some cb | _ => cur end)
            es init.

(** Every trigger call of the trace was made with interval [ms]. *)
Definition uniform (ms : nat) (es : list event) : Prop :=
  Forall (fun e => match e with Call ms' => ms' = ms | _ => True end) es.

(** Invocation times, newest first, are at least [ms] apart. *)
Fixpoint spaced (ms : nat) (ts : list nat) : Prop :=
  match ts with
  | t2 :: ((t1 :: _) as rest) => t1 + ms <= t2 /\ spaced ms rest
  | _ => True
  end.

End Hook.

Arguments hook : clear implicits.
Arguments event : clear implicits.
Arguments sim : clear implicits.

End Throttle.

(** ** Values thrown at the controller *)

Module Js.

(** The values a rejected request can carry, as far as [triggerUpdate] tells
    them apart. *)
Inductive Thrown : Type :=
| Undefined                                  (* [undefined] *)
| Str (s : string)                           (* a string *)
| RpcError (code : Z) (message : string)     (* [{code, message}] from the server *)
| ErrorObject (name message : string)        (* [new Error(message)] and subclasses *)
| PlainObject (fields : list (string * string)).
    (* any other object: its own enumerable properties, string-valued *)

(** [typeof ex === 'string'] *)
Definition typeofString (ex : Thrown) : bool :=
  match ex with Str _ => true | _ => false end.

(** Modelled from the spec: [isRpcError] of the infoview API package is not
    among the sources; an RPC failure is "an error carrying a numeric code
    and message". *)
Definition isRpcError (ex : Thrown) : bool :=
  match ex with RpcError _ _ => true | _ => false end.

(** [ex.code], where there is one. *)
Definition code (ex : Thrown) : option Z :=
  match ex with RpcError c _ => Some c | _ => None end.

(** [ex instanceof Error] *)
Definition instanceofError (ex : Thrown) : bool :=
  match ex with ErrorObject _ _ => true | _ => false end.

Definition quote : string := String (ascii_of_nat 34) EmptyString.

Definition quoted (s : string) : string :=
  String.append quote (String.append s quote).

Definition member (kv : string * string) : string :=
  String.append (quoted (fst kv)) (String.append ":" (quoted (snd kv))).

Fixpoint members (fs : list (string * string)) : string :=
  match fs with
  | [] => ""
  | [kv] => member kv
  | kv :: rest => String.append (member kv) (String.append "," (members rest))
  end.

(** [JSON.stringify(ex)], without character escapes; [None] is [undefined].
    The properties of an [Error] ([message], [stack]) are not enumerable, so
    an [Error] serialises to the empty object. *)
Definition JSON_stringify (ex : Thrown) : option string :=
  match ex with
  | Undefined => None
  | Str s => Some (quoted s)
  | RpcError c m =>
      Some (String.append "{"
             (String.append (quoted "code")
               (String.append ":"
                 (String.append (pretty c)
                   (String.append ","
                     (String.append (member ("message", m)) "}"))))))
  | ErrorObject _ _ => Some "{}"
  | PlainObject fs => Some (String.append "{" (String.append (members fs) "}"))
  end.

(** [ex === undefined] *)
Definition isUndefined (ex : Thrown) : bool :=
  match ex with Undefined => true | _ => false end.

(** [JSON.stringify(ex) === '{}'] *)
Definition serialisesEmpty (ex : Thrown) : bool :=
  match JSON_stringify ex with
  | Some j => String.eqb j "{}"
  | None => false
  end.

(** [Error.prototype.toString] *)
Definition toString (name message : string) : string :=
  if String.eqb name "" then message
  else if String.eqb message "" then name
  else String.append name (String.append ": " message).

(** [`${JSON.stringify(ex)}`] *)
Definition interpolate (o : option string) : string :=
  match o with Some s => s | None => "undefined" end.

End Js.

(** ** The controller [InfoAux] *)

(** ['loading' | 'updating' | 'error' | 'ready'] *)
Module InfoStatus.

Inductive t : Type := loading | updating | error | ready.

#[global] Instance eq_dec : EqDecision t.
Proof. solve_decision. Defined.

End InfoStatus.

Module Info.

(** The payloads of the three requests are opaque to the controller; they are
    kept as the text they display. *)
Definition InteractiveGoals : Type := list string.
Definition InteractiveGoal : Type := string.
Definition UserWidgets : Type := list string.

(** A session handle, compared by identity. *)
Definition RpcSessionAtPos : Type := nat.

(** How [allReq], the promise for the three requests of one update, settles.
    Both ways of building it (interactive or plain goals) end in a triple or
    in a thrown value. *)
Inductive Outcome : Type :=
| Fulfilled (goals : option InteractiveGoals) (termGoal : option InteractiveGoal)
            (userWidgets : option UserWidgets)
| RejectedWith (ex : Js.Thrown).

(** What the callback given to [useDelayedThrottled] captured from the render
    that created it: the position, the session [rpcSess0] for it, and the
    interval of the trigger of that render, [triggerUpdate]. *)
Record Closure : Type := mkClosure {
  c_pos : DocumentPosition;
  c_rpcSess0 : RpcSessionAtPos;
  c_ms : nat
}.

(** The value built by [mkDisplayProps], held in the state [displayProps]. *)
Record DisplayProps : Type := mkDisplay {
  dp_pos : DocumentPosition;
  dp_goals : option InteractiveGoals;
  dp_termGoal : option InteractiveGoal;
  dp_error : option string;
  dp_rpcSess : RpcSessionAtPos;
  dp_userWidgets : option UserWidgets
}.

(** The component: its prop [pos], the context value [serverIsProcessing],
    its state cells, the refs of its throttle hook, and the requests it has in
    flight.  [issued] records every update started (request number and
    position, newest first). *)
Record state : Type := mkState {
  pos : DocumentPosition;
  serverIsProcessing : bool;
  status : InfoStatus.t;
  goals : option InteractiveGoals;
  termGoal : option InteractiveGoal;
  userWidgets : option UserWidgets;
  error : option string;
  rpcSess : RpcSessionAtPos;
  displayProps : DisplayProps;
  shouldUpdateDisplay : bool;
  throttle : Throttle.hook Closure;
  pending : list (nat * Closure);
  nextId : nat;
  issued : list (nat * DocumentPosition)
}.

Definition setPos (p : DocumentPosition) (s : state) : state :=
  mkState p (serverIsProcessing s) (status s) (goals s) (termGoal s)
    (userWidgets s) (error s) (rpcSess s) (displayProps s)
    (shouldUpdateDisplay s) (throttle s) (pending s) (nextId s) (issued s).

Definition setServerIsProcessing (b : bool) (s : state) : state :=
  mkState (pos s) b (status s) (goals s) (termGoal s)
    (userWidgets s) (error s) (rpcSess s) (displayProps s)
    (shouldUpdateDisplay s) (throttle s) (pending s) (nextId s) (issued s).

Definition setStatus (v : InfoStatus.t) (s : state) : state :=
  mkState (pos s) (serverIsProcessing s) v (goals s) (termGoal s)
    (userWidgets s) (error s) (rpcSess s) (displayProps s)
    (shouldUpdateDisplay s) (throttle s) (pending s) (nextId s) (issued s).

Definition setGoals (v : option InteractiveGoals) (s : state) : state :=
  mkState (pos s) (serverIsProcessing s) (status s) v (termGoal s)
    (userWidgets s) (error s) (rpcSess s) (displayProps s)
    (shouldUpdateDisplay s) (throttle s) (pending s) (nextId s) (issued s).

Definition setTermGoal (v : option InteractiveGoal) (s : state) : state :=
  mkState (pos s) (serverIsProcessing s) (status s) (goals s) v
    (userWidgets s) (error s) (rpcSess s) (displayProps s)
    (shouldUpdateDisplay s) (throttle s) (pending s) (nextId s) (issued s).

Definition setUserWidgets (v : option UserWidgets) (s : state) : state :=
  mkState (pos s) (serverIsProcessing s) (status s) (goals s) (termGoal s)
    v (error s) (rpcSess s) (displayProps s)
    (shouldUpdateDisplay s) (throttle s) (pending s) (nextId s) (issued s).

Definition setError (v : option string) (s : state) : state :=
  mkState (pos s) (serverIsProcessing s) (status s) (goals s) (termGoal s)
    (userWidgets s) v (rpcSess s) (displayProps s)
    (shouldUpdateDisplay s) (throttle s) (pending s) (nextId s) (issued s).

Definition setRpcSess (v : RpcSessionAtPos) (s : state) : state :=
  mkState (pos s) (serverIsProcessing s) (status s) (goals s) (termGoal s)
    (userWidgets s) (error s) v (displayProps s)
    (shouldUpdateDisplay s) (throttle s) (pending s) (nextId s) (issued s).

Definition setDisplayProps (v : DisplayProps) (s : state) : state :=
  mkState (pos s) (serverIsProcessing s) (status s) (goals s) (termGoal s)
    (userWidgets s) (error s) (rpcSess s) v
    (shouldUpdateDisplay s) (throttle s) (pending s) (nextId s) (issued s).

Definition setShouldUpdateDisplay (v : bool) (s : state) : state :=
  mkState (pos s) (serverIsProcessing s) (status s) (goals s) (termGoal s)
    (userWidgets s) (error s) (rpcSess s) (displayProps s)
    v (throttle s) (pending s) (nextId s) (issued s).

Definition setThrottle (h : Throttle.hook Closure) (s : state) : state :=
  mkState (pos s) (serverIsProcessing s) (status s) (goals s) (termGoal s)
    (userWidgets s) (error s) (rpcSess s) (displayProps s)
    (shouldUpdateDisplay s) h (pending s) (nextId s) (issued s).

(** A request leaves: it joins the promises in flight and the record. *)
Definition send (c : Closure) (s : state) : state :=
  mkState (pos s) (serverIsProcessing s) (status s) (goals s) (termGoal s)
    (userWidgets s) (error s) (rpcSess s) (displayProps s)
    (shouldUpdateDisplay s) (throttle s)
    (pending s ++ [(nextId s, c)]) (S (nextId s))
    ((nextId s, c_pos c) :: issued s).

Fixpoint lookupRequest (id : nat) (l : list (nat * Closure)) : option Closure :=
  match l with
  | [] => None
  | (i, c) :: l' => if i =? id then Some c else lookupRequest id l'
  end.

Fixpoint dropRequest (id : nat) (l : list (nat * Closure)) : list (nat * Closure) :=
  match l with
  | [] => []
  | (i, c) :: l' => if i =? id then l' else (i, c) :: dropRequest id l'
  end.

Definition settle (id : nat) (s : state) : state :=
  mkState (pos s) (serverIsProcessing s) (status s) (goals s) (termGoal s)
    (userWidgets s) (error s) (rpcSess s) (displayProps s)
    (shouldUpdateDisplay s) (throttle s)
    (dropRequest id (pending s)) (nextId s) (issued s).

Section Controller.

(** Collaborators that are not among the sources: the session hook
    [useRpcSessionAtPos] and the message of [mapRpcError(ex)] for an RPC error
    with the given code and message. *)
Variable useRpcSessionAtPos : DocumentPosition -> RpcSessionAtPos.
Variable mapRpcError : Z -> string -> string.

(** [serverIsProcessing ? 500 : 50] *)
Definition interval (b : bool) : nat := if b then 500 else 50.

(** The callback created by the current render. *)
Definition closure (s : state) : Closure :=
  {| c_pos := pos s;
     c_rpcSess0 := useRpcSessionAtPos (pos s);
     c_ms := interval (serverIsProcessing s) |}.

(** [mkDisplayProps]: reads the prop and the state cells of the render that
    calls it. *)
Definition mkDisplayProps (s : state) : DisplayProps :=
  {| dp_pos := pos s;
     dp_goals := goals s;
     dp_termGoal := termGoal s;
     dp_error := error s;
     dp_rpcSess := rpcSess s;
     dp_userWidgets := userWidgets s |}.

(** One render of the component body after a state change: the
    [shouldUpdateDisplay] block, then the throttle hook storing the new
    callback. *)
Definition InfoAux (s : state) : state :=
  let s1 :=
    if shouldUpdateDisplay s
    then setShouldUpdateDisplay false (setDisplayProps (mkDisplayProps s) s)
    else s in
  setThrottle (Throttle.render (closure s1) (throttle s1)) s1.

(** [triggerUpdate] as returned by a render whose interval was [ms]. *)
Definition triggerUpdate (ms : nat) (s : state) : state :=
  setThrottle (Throttle.trigger ms (throttle s)) s.

(** The error text of the [catch] block, its tests in program order; [None]
    is the branch that clears the error and returns. *)
Definition errorString (ex : Js.Thrown) : option string :=
  match ex with
  | Js.Str s => Some s
  | Js.RpcError c m => Some (mapRpcError c m)
  | Js.ErrorObject n m => Some (Js.toString n m)
  | _ =>
      if Js.isUndefined ex || Js.serialisesEmpty ex then None
      else Some (String.append "Unrecognised error: "
                   (Js.interpolate (Js.JSON_stringify ex)))
  end.

(** [isRpcError(ex) && ex.code === RpcErrorCode.ContentModified] *)
Definition contentModified (ex : Js.Thrown) : bool :=
  Js.isRpcError ex &&
  match Js.code ex with
  | Some c => (c =? Diagnostics.ContentModified)%Z
  | None => false
  end.

(** The callback up to its [await]: [setStatus('updating')] and the requests
    for the captured position. *)
Definition begin (c : Closure) (s : state) : state :=
  send c (setStatus InfoStatus.updating s).

(** The callback from its [await] on, once [allReq] has settled. *)
Definition resume (c : Closure) (o : Outcome) (s : state) : state :=
  match o with
  | Fulfilled g t w =>
      setShouldUpdateDisplay true
        (setStatus InfoStatus.ready
          (setRpcSess (c_rpcSess0 c)
            (setUserWidgets w (setTermGoal t (setGoals g s)))))
  | RejectedWith ex =>
      if contentModified ex then triggerUpdate (c_ms c) s
      else
        match errorString ex with
        | None => setError None s
        | Some e =>
            setShouldUpdateDisplay true
              (setStatus InfoStatus.error
                (setError (Some (String.append "Error fetching goals: " e)) s))
        end
  end.

(** First render and its effect. *)
Definition mount (p : DocumentPosition) (processing : bool) (t0 : nat) : state :=
  let s0 :=
    {| pos := p; serverIsProcessing := processing;
       status := InfoStatus.loading;
       goals := None; termGoal := None; userWidgets := None; error := None;
       rpcSess := useRpcSessionAtPos p;
       displayProps :=
         {| dp_pos := p; dp_goals := None; dp_termGoal := None;
            dp_error := None; dp_rpcSess := useRpcSessionAtPos p;
            dp_userWidgets := None |};
       shouldUpdateDisplay := false;
       throttle := Throttle.mount t0;
       pending := []; nextId := 0; issued := [] |} in
  let s1 := InfoAux s0 in
  triggerUpdate (c_ms (closure s1)) s1.

(** What happens to a mounted controller. *)
Inductive event : Type :=
| CursorMoved (p : DocumentPosition)     (* the prop [pos] changes *)
| ProcessingChanged (b : bool)           (* [serverIsProcessing] changes *)
| UpdateClicked                          (* the user asks for an update *)
| Elapsed (d : nat)                      (* [d] milliseconds pass *)
| TimerDue                               (* the event loop runs a due timer *)
| Settled (id : nat) (o : Outcome).      (* the requests of update [id] settle *)

(** One handler, run to completion, followed by the render it causes.  The
    effect [useEffect(() => void triggerUpdate(), [pos.uri, pos.line,
    pos.character, serverIsProcessing])] runs after a render that changed one
    of its dependencies. *)
Definition step (s : state) (e : event) : state :=
  match e with
  | CursorMoved p =>
      if decide (p = pos s) then s
      else
        let s1 := InfoAux (setPos p s) in
        triggerUpdate (c_ms (closure s1)) s1
  | ProcessingChanged b =>
      if decide (b = serverIsProcessing s) then s
      else
        let s1 := InfoAux (setServerIsProcessing b s) in
        triggerUpdate (c_ms (closure s1)) s1
  | UpdateClicked => triggerUpdate (c_ms (closure s)) s
  | Elapsed d => setThrottle (Throttle.advance d (throttle s)) s
  | TimerDue =>
      match Throttle.fire (throttle s) with
      | (h', Some c) => InfoAux (begin c (setThrottle h' s))
      | (h', None) => setThrottle h' s
      end
  | Settled id o =>
      match lookupRequest id (pending s) with
      | Some c => InfoAux (resume c o (settle id s))
      | None => s
      end
  end.

Definition run (s : state) (es : list event) : state := fold_left step es s.

(** What [InfoDisplay] is rendered with: the snapshot [displayProps] and,
    outside it, the live [status] and session. *)
Definition InfoDisplay (s : state) : DisplayProps * InfoStatus.t * RpcSessionAtPos :=
  (displayProps s, status s, rpcSess s).

(** States in which the component is at rest between two handlers: the stored
    callback is the one of the last render, no commit is outstanding, a timer
    is set exactly while [waiting] holds, and request numbers are fresh. *)
Definition consistent (s : state) : Prop :=
  Throttle.callbackRef (throttle s) = Some (closure s) /\
  shouldUpdateDisplay s = false /\
  (if Throttle.waiting (throttle s)
   then exists d, Throttle.timers (throttle s) = [d]
   else Throttle.timers (throttle s) = []) /\
  Forall (fun r => fst r < nextId s) (pending s).

End Controller.

End Info.

(** ** A raw diagnostic in interactive shape *)

Module Exposure.

(** The interactive diagnostic [i] carries the raw diagnostic [d]: the same
    range, full range and severity, and as message the plain text of [d]. *)
Definition carries {MsgEmbed : Type} (d : Diagnostics.Diagnostic)
    (i : Diagnostics.InteractiveDiagnostic MsgEmbed) : Prop :=
  Diagnostics.i_range i = Diagnostics.range d /\
  Diagnostics.i_fullRange i = Diagnostics.fullRange d /\
  Diagnostics.i_severity i = Diagnostics.severity d /\
  Diagnostics.i_message i = TaggedTextTree.text (Diagnostics.message d).

End Exposure.

(** ** The specification's wording of three properties

    Stated over the model as the specification words them, to be compared
    with what the code does. *)

Module Spec.

(** "Calls arriving while a wait or an action is outstanding do not queue
    additional invocations." *)
Definition coalescesWhileOutstanding (A : Type) (ms : nat) : Prop :=
  forall (t0 : nat) (es : list (Throttle.event A)),
    Throttle.uniform ms es ->
    let s := Throttle.run (Throttle.start t0) es in
    Throttle.waiting (Throttle.the_hook s) = true \/ 0 < Throttle.running s ->
    Throttle.timers (Throttle.the_hook (Throttle.step s (Throttle.Call ms)))
    = Throttle.timers (Throttle.the_hook s).

(** "An error whose serialized form is empty ([{}] or undefined)". *)
Definition emptySerialisation (ex : Js.Thrown) : Prop :=
  Js.JSON_stringify ex = None \/ Js.JSON_stringify ex = Some "{}".

(** "For every update cycle that fails with an error whose serialized form is
    empty, the controller clears any error and the status remains unchanged,
    in particular it does not transition to [error]." *)
Definition emptyErrorSuppressed
    (useRpcSessionAtPos : DocumentPosition -> Info.RpcSessionAtPos)
    (mapRpcError : Z -> string -> string) : Prop :=
  forall (s : Info.state) (id : nat) (c : Info.Closure) (ex : Js.Thrown),
    Info.consistent useRpcSessionAtPos s ->
    Info.lookupRequest id (Info.pending s) = Some c ->
    emptySerialisation ex ->
    let s' := Info.step useRpcSessionAtPos mapRpcError s
                (Info.Settled id (Info.RejectedWith ex)) in
    Info.error s' = None /\ Info.status s' = Info.status s.

(** "A request failing with the content-modified code is retried immediately:
    exactly one additional request is issued with the same position." *)
Definition retriesImmediately
    (useRpcSessionAtPos : DocumentPosition -> Info.RpcSessionAtPos)
    (mapRpcError : Z -> string -> string) : Prop :=
  forall (s : Info.state) (id : nat) (c : Info.Closure) (msg : string),
    Info.consistent useRpcSessionAtPos s ->
    Info.lookupRequest id (Info.pending s) = Some c ->
    Info.issued
      (Info.step useRpcSessionAtPos mapRpcError s
         (Info.Settled id
            (Info.RejectedWith (Js.RpcError Diagnostics.ContentModified msg))))
    = (Info.nextId s, Info.c_pos c) :: Info.issued s.

End Spec.

(** ** Sample data *)

Module Samples.

Definition diagnostic : Diagnostics.Diagnostic :=
  Diagnostics.mkDiagnostic
    (Diagnostics.mkRange (Diagnostics.mkPosition 3 0) (Diagnostics.mkPosition 3 7))
    None (Some 1) "unknown identifier".

(** Two cursor positions in one file. *)
Definition P1 : DocumentPosition := mkPos "a.lean" 10 2.
Definition P2 : DocumentPosition := mkPos "a.lean" 20 4.

(** A session hook that hands out one handle per line. *)
Definition sessionAt (p : DocumentPosition) : Info.RpcSessionAtPos := line p.

(** [mapRpcError] keeping the server's message. *)
Definition rpcMessage (c : Z) (m : string) : string := m.

Definition step : Info.state -> Info.event -> Info.state :=
  Info.step sessionAt rpcMessage.

Definition run : Info.state -> list Info.event -> Info.state :=
  Info.run sessionAt rpcMessage.

(** The replies of the server for the two positions. *)
Definition G1 : Info.Outcome := Info.Fulfilled (Some ["goal at 10"]) None None.
Definition G2 : Info.Outcome := Info.Fulfilled (Some ["goal at 20"]) None None.

(** The controller mounted at [P1] whose first update is in flight: the first
    wait of 50 ms is over and request 0 has left for [P1]. *)
Definition requested : Info.state :=
  run (Info.mount sessionAt P1 false 0) [Info.Elapsed 50; Info.TimerDue].

(** From there the cursor moves to [P2], whose update (request 1) leaves
    after its own wait and is answered first. *)
Definition overtaken : Info.state :=
  run requested
    [Info.CursorMoved P2; Info.Elapsed 50; Info.TimerDue; Info.Settled 1 G2].

(** The throttle after one full wait: the action [a] is running. *)
Definition busy : Throttle.sim string :=
  Throttle.run (Throttle.start 0)
    [Throttle.Render "a"; Throttle.Call 50; Throttle.Advance 50; Throttle.Fire].

End Samples.

(** ** What [InfoDisplay] shows *)

Module Panel.

(** JavaScript truthiness of [error?: string]: defined and not empty. *)
Definition truthy (e : option string) : bool :=
  match e with
  | Some s => negb (String.eqb s "")
  | None => false
  end.

(** [goals], [termGoal] are objects when defined, hence truthy. *)
Definition defined {X : Type} (o : option X) : bool :=
  match o with Some _ => true | None => false end.

(** [(widgets !== undefined) && (widgets.length > 0)], [widgets] being
    [userWidgets && userWidgets.widgets]. *)
Definition hasWidget (dp : Info.DisplayProps) : bool :=
  match Info.dp_userWidgets dp with
  | Some ws => 0 <? length ws
  | None => false
  end.

Definition isError (st : InfoStatus.t) : bool :=
  match st with InfoStatus.error => true | _ => false end.

(** The tests of [InfoDisplay], on the props it is rendered with (not
    paused): the snapshot, the status and the number of messages. *)
Definition nothingToShow (dp : Info.DisplayProps) (messages : nat) : bool :=
  negb (truthy (Info.dp_error dp)) && negb (defined (Info.dp_goals dp)) &&
  negb (defined (Info.dp_termGoal dp)) && (messages =? 0) &&
  negb (hasWidget dp).

Definition hasError (dp : Info.DisplayProps) (st : InfoStatus.t) : bool :=
  isError st && truthy (Info.dp_error dp).

Definition hasGoals (dp : Info.DisplayProps) (st : InfoStatus.t) : bool :=
  negb (isError st) && defined (Info.dp_goals dp).

Definition hasTermGoal (dp : Info.DisplayProps) (st : InfoStatus.t) : bool :=
  negb (isError st) && defined (Info.dp_termGoal dp).

Definition hasMessages (st : InfoStatus.t) (messages : nat) : bool :=
  negb (isError st) && negb (messages =? 0).

(** The parts of the panel that are visible: the error line, the tactic
    state, the expected type, the widgets, the messages, and the closing
    line ("No info found." or the paused hint). *)
Record Visible : Type := mkVisible {
  v_error : bool;
  v_goals : bool;
  v_termGoal : bool;
  v_widgets : bool;
  v_messages : bool;
  v_nothing : bool
}.

Definition InfoDisplay (dp : Info.DisplayProps) (st : InfoStatus.t)
    (messages : nat) : Visible :=
  {| v_error := hasError dp st;
     v_goals := hasGoals dp st;
     v_termGoal := hasTermGoal dp st;
     v_widgets := hasWidget dp;
     v_messages := hasMessages st messages;
     v_nothing := nothingToShow dp messages |}.

End Panel.

(** ** The message list *)

Module MessageViews.

Section Views.

Context {MsgEmbed : Type}.

(** [msg.fullRange?.end || msg.range.end]: a position is an object, hence
    truthy when present. *)
Definition endOf (m : Diagnostics.InteractiveDiagnostic MsgEmbed)
  : Diagnostics.Position :=
  match Diagnostics.i_fullRange m with
  | Some r => Diagnostics.r_end r
  | None => Diagnostics.r_end (Diagnostics.i_range m)
  end.

(** The comparator given to [sort]:
    [a.line === b.line ? a.character - b.character : a.line - b.line]. *)
Definition compareEnds (a b : Diagnostics.Position) : Z :=
  if Diagnostics.p_line a =? Diagnostics.p_line b
  then (Z.of_nat (Diagnostics.p_character a) - Z.of_nat (Diagnostics.p_character b))%Z
  else (Z.of_nat (Diagnostics.p_line a) - Z.of_nat (Diagnostics.p_line b))%Z.

Definition compareMessages (a b : Diagnostics.InteractiveDiagnostic MsgEmbed) : Z :=
  compareEnds (endOf a) (endOf b).

(** [Array.prototype.sort] with a comparator is a stable sort: elements the
    comparator does not separate keep their order.  Insertion of each element
    in front of the sorted rest, before the first element it does not
    exceed. *)
Fixpoint insert {X : Type} (cmp : X -> X -> Z) (x : X) (l : list X) : list X :=
  match l with
  | [] => [x]
  | y :: l' =>
      if (cmp x y <=? 0)%Z then x :: y :: l' else y :: insert cmp x l'
  end.

Definition sort {X : Type} (cmp : X -> X -> Z) (l : list X) : list X :=
  fold_right (insert cmp) [] l.

(** [MessageViewProps] *)
Record MessageViewProps : Type := mkView {
  view_uri : string;
  view_diag : Diagnostics.InteractiveDiagnostic MsgEmbed
}.

(** The constant [views] of [mkMessageViewProps]: the messages sorted by
    where they end, each paired with the uri.  ([addUniqueKeys], which then
    attaches the React keys, is not among the sources.) *)
Definition views (u : string) (messages : list (Diagnostics.InteractiveDiagnostic MsgEmbed))
  : list MessageViewProps :=
  map (fun m => {| view_uri := u; view_diag := m |}) (sort compareMessages messages).

(** The order the comparator stands for: by line, then by character. *)
Definition endsBefore (a b : Diagnostics.Position) : Prop :=
  Diagnostics.p_line a < Diagnostics.p_line b \/
  (Diagnostics.p_line a = Diagnostics.p_line b /\
   Diagnostics.p_character a <= Diagnostics.p_character b).

(** Whether a message ends at the given position. *)
Definition endsAt (p : Diagnostics.Position)
    (m : Diagnostics.InteractiveDiagnostic MsgEmbed) : bool :=
  (Diagnostics.p_line (endOf m) =? Diagnostics.p_line p) &&
  (Diagnostics.p_character (endOf m) =? Diagnostics.p_character p).

End Views.

Arguments MessageViewProps : clear implicits.

End MessageViews.

(** ** Go to definition *)

Module GoTo.

(** [Location] and [LocationLink] of the language server protocol. *)
Record Location : Type := mkLocation {
  loc_uri : string;
  loc_range : Diagnostics.Range
}.

Record LocationLink : Type := mkLink {
  targetUri : string;
  targetRange : Diagnostics.Range;
  targetSelectionRange : Diagnostics.Range
}.

(** How [getGoToLocation] settles: with [undefined] or a list of links, or
    rejected. *)
Inductive Links : Type :=
| Answered (lnks : option (list LocationLink))
| Refused.

(** The state [goToLoc] of one tag, with the number of requests made and of
    errors written to the console. *)
Record state : Type := mkState {
  goToLoc : option Location;
  requests : nat;
  logged : nat
}.

Definition initial : state := {| goToLoc := None; requests := 0; logged := 0 |}.

(** One call of [fetchGoToLoc], run to its end and followed by the render
    that rebuilds the callback with the new [goToLoc]; [o] is how the request
    settles if one is made. *)
Definition fetchGoToLoc (o : Links) (s : state) : option Location * state :=
  match goToLoc s with
  | Some loc => (Some loc, s)
  | None =>
      match o with
      | Answered (Some (l :: _)) =>
          let loc := {| loc_uri := targetUri l;
                        loc_range := targetSelectionRange l |} in
          (Some loc,
           {| goToLoc := Some loc; requests := S (requests s); logged := logged s |})
      | Answered _ =>
          (None,
           {| goToLoc := None; requests := S (requests s); logged := logged s |})
      | Refused =>
          (None,
           {| goToLoc := None; requests := S (requests s);
              logged := S (logged s) |})
      end
  end.

(** Successive calls, the [i]-th with the outcome [o_i]. *)
Fixpoint fetches (os : list Links) (s : state) : list (option Location) * state :=
  match os with
  | [] => ([], s)
  | o :: os' =>
      let '(r, s') := fetchGoToLoc o s in
      let '(rs, s'') := fetches os' s' in
      (r :: rs, s'')
  end.

(** A request that yields a location. *)
Definition hit (o : Links) : bool :=
  match o with
  | Answered (Some (_ :: _)) => true
  | _ => false
  end.

End GoTo.

(** ** Shapes of tagged text *)

Module Shape.

Section Shape.

Context {T R : Type}.
Variable InnerTagUi : DocumentPosition -> TaggedTextTree.TaggedText T -> T -> R.

(** No object without a key on the way from the root to a [text] or [tag]
    node; what lies under a tag is not looked at. *)
Fixpoint spineOk (fmt : TaggedTextTree.TaggedText T) : bool :=
  match fmt with
  | TaggedTextTree.text _ => true
  | TaggedTextTree.append l => forallb spineOk l
  | TaggedTextTree.tag _ _ => true
  | TaggedTextTree.malformed => false
  end.

(** The pieces of a tree, left to right. *)
Fixpoint pieces (pos : DocumentPosition) (fmt : TaggedTextTree.TaggedText T)
  : list (TaggedTextTree.Piece R) :=
  match fmt with
  | TaggedTextTree.text s => [TaggedTextTree.PText s]
  | TaggedTextTree.append l => concat (map (pieces pos) l)
  | TaggedTextTree.tag t x => [TaggedTextTree.PTag (InnerTagUi pos x t)]
  | TaggedTextTree.malformed => []
  end.

End Shape.

End Shape.

(** ** Runs of the diagnostics map and of the controller *)

Module Runs.

(** The diagnostics map after a sequence of [publishDiagnostics] events. *)
Definition publishAll (evs : list Diagnostics.PublishDiagnosticsParams)
    (dc : gmap string (list Diagnostics.Diagnostic))
  : gmap string (list Diagnostics.Diagnostic) :=
  fold_left (fun m p => Diagnostics.publishDiagnostics p m) evs dc.

(** The list of the last event for the uri [u], if there is one. *)
Definition lastFor (u : string) (evs : list Diagnostics.PublishDiagnosticsParams)
  : option (list Diagnostics.Diagnostic) :=
  fold_left
    (fun cur p =>
       if String.eqb (Diagnostics.params_uri p) u
       then Some (Diagnostics.params_diagnostics p) else cur)
    evs None.

(** No timer of the throttle lies more than [ms] ahead. *)
Definition prompt {A : Type} (ms : nat) (h : Throttle.hook A) : Prop :=
  Forall (fun d => d <= Throttle.now h + ms) (Throttle.timers h).

(** The status is [loading] exactly as long as no update has been started,
    and nothing is in flight before the first one. *)
Definition tracked (s : Info.state) : Prop :=
  (Info.status s = InfoStatus.loading <-> Info.issued s = []) /\
  (Info.issued s = [] -> Info.pending s = []).

(** The pending timers lie at most 500 ms ahead, and so do the intervals of
    the triggers held by the callbacks in flight. *)
Definition timely (s : Info.state) : Prop :=
  prompt 500 (Info.throttle s) /\
  Forall (fun r => Info.c_ms (snd r) <= 500) (Info.pending s).

(** The first update has failed and, after a click on "update", the next
    one is in flight. *)
Definition retrying : Info.state :=
  Samples.run Samples.requested
    [Info.Settled 0 (Info.RejectedWith (Js.Str "server stopped"));
     Info.UpdateClicked; Info.Elapsed 50; Info.TimerDue].

(** Three messages, given out of order; the first and the last end at the
    same place. *)
Definition message (l c : nat) (txt : string) : Diagnostics.InteractiveDiagnostic unit :=
  Diagnostics.mkInteractive
    (Diagnostics.mkRange (Diagnostics.mkPosition l 0) (Diagnostics.mkPosition l c))
    None (Some 1) (TaggedTextTree.text txt).

Definition unsorted : list (Diagnostics.InteractiveDiagnostic unit) :=
  [message 7 4 "b"; message 3 9 "a"; message 7 4 "c"].

Definition link : GoTo.LocationLink :=
  GoTo.mkLink "b.lean"
    (Diagnostics.mkRange (Diagnostics.mkPosition 1 0) (Diagnostics.mkPosition 5 0))
    (Diagnostics.mkRange (Diagnostics.mkPosition 1 4) (Diagnostics.mkPosition 1 9)).

End Runs.

(** ** Updates that fail with an empty value *)

Module Scenes.

(** The empty object [{}]. *)
Definition emptyObject : Info.Outcome := Info.RejectedWith (Js.PlainObject []).

(** The first update has been answered: the status is [ready]. *)
Definition answered : Info.state :=
  Samples.run Samples.requested [Info.Settled 0 Samples.G1].

(** From there the user asks for an update, whose requests fail with the
    empty object. *)
Definition emptyFailure : Info.state :=
  Samples.run answered
    [Info.UpdateClicked; Info.Elapsed 50; Info.TimerDue;
     Info.Settled 1 emptyObject].

(** Two updates in flight at once: the first is still unanswered when the
    user asks for the second. *)
Definition twoInFlight : Info.state :=
  Samples.run Samples.requested
    [Info.UpdateClicked; Info.Elapsed 50; Info.TimerDue].

(** The first of them fails with a message, the second with the empty
    object. *)
Definition bothFailed : Info.state :=
  Samples.run twoInFlight
    [Info.Settled 0 (Info.RejectedWith (Js.Str "server stopped"));
     Info.Settled 1 emptyObject].

End Scenes.

(** * Part II: properties *)

(** ** TaggedText display loop *)

Section TaggedTextFacts.

Import TaggedTextTree.

Context {T R : Type}.
Variable InnerTagUi : DocumentPosition -> TaggedText T -> T -> R.

Lemma render_append (pos : DocumentPosition) (l : list (TaggedText T)) :
  InteractiveTaggedText InnerTagUi pos (append l)
  = collect (map (InteractiveTaggedText InnerTagUi pos) l).
Proof.
  induction l as [|a l IH]; [reflexivity|].
  change (InteractiveTaggedText InnerTagUi pos (append (a :: l)))
    with (match InteractiveTaggedText InnerTagUi pos a with
          | Ok r => match InteractiveTaggedText InnerTagUi pos (append l) with
                    | Ok out => Ok (r ++ out)
                    | Throw m => Throw m
                    end
          | Throw m => Throw m
          end).
  rewrite IH. reflexivity.
Qed.

(** Every throw of the loop carries the same message. *)
Lemma render_throw (pos : DocumentPosition) (fmt : TaggedText T) (m : string) :
  InteractiveTaggedText InnerTagUi pos fmt = Throw m -> m = malformed_message.
Proof.
  revert m.
  induction fmt as [s|l IH|t x _|] using TaggedText_forall_ind; intros m.
  - discriminate.
  - rewrite render_append.
    induction IH as [|a l Ha _ IHl]; simpl; [discriminate|].
    destruct (InteractiveTaggedText InnerTagUi pos a) as [r|m'] eqn:Ea.
    + destruct (collect (map (InteractiveTaggedText InnerTagUi pos) l))
        as [out|m'']; [discriminate|].
      intros [= <-]. apply IHl. reflexivity.
    + intros [= <-]. apply Ha. reflexivity.
  - discriminate.
  - intros [= <-]. reflexivity.
Qed.

Lemma collect_throw (rs : list (result (list (Piece R)))) (m : string) :
  In (Throw m) rs -> exists m', collect rs = Throw m'.
Proof.
  induction rs as [|r rs IH]; simpl; [tauto|].
  intros [->|Hin]; [eauto|].
  destruct r as [r|m0]; [|eauto].
  destruct (IH Hin) as [m' ->]. eauto.
Qed.

Lemma collect_all_ok (rs : list (result (list (Piece R)))) (outs : list (list (Piece R))) :
  Forall2 (fun r o => r = Ok o) rs outs -> collect rs = Ok (concat outs).
Proof.
  induction 1 as [|r o rs outs -> _ IH]; simpl; [reflexivity|].
  rewrite IH. reflexivity.
Qed.

(** C6. The display loop renders a [text] node as its string, an [append]
    node as its children's renderings joined first to last (all of them when
    each child renders, and the concrete fragment [a], [tag t b] as the text
    [a] followed by what the tag component makes of [b]), hands a [tag] node
    to the tag component with the tag and the subtree, and throws on an object
    with none of the three keys, also when that object sits among the children
    of a fragment. *)
Theorem render_structural (pos : DocumentPosition) :
  (forall s, InteractiveTaggedText InnerTagUi pos (text s) = Ok [PText s]) /\
  (forall l, InteractiveTaggedText InnerTagUi pos (append l)
             = collect (map (InteractiveTaggedText InnerTagUi pos) l)) /\
  (forall l outs,
      Forall2 (fun a o => InteractiveTaggedText InnerTagUi pos a = Ok o) l outs ->
      InteractiveTaggedText InnerTagUi pos (append l) = Ok (concat outs)) /\
  (forall t x, InteractiveTaggedText InnerTagUi pos (tag t x)
               = Ok [PTag (InnerTagUi pos x t)]) /\
  (forall t, InteractiveTaggedText InnerTagUi pos
               (append [text "a"; tag t (text "b")])
             = Ok [PText "a"; PTag (InnerTagUi pos (text "b") t)]) /\
  InteractiveTaggedText InnerTagUi pos malformed = Throw malformed_message /\
  (forall l, In malformed l ->
             InteractiveTaggedText InnerTagUi pos (append l)
             = Throw malformed_message).
Proof.
  repeat split; try reflexivity.
  - apply render_append.
  - intros l outs H. rewrite render_append. apply collect_all_ok.
    induction H; constructor; assumption.
  - intros l Hin.
    assert (Hthrow : exists m, InteractiveTaggedText InnerTagUi pos (append l)
                               = Throw m).
    { rewrite render_append. apply collect_throw with (m := malformed_message).
      apply in_map_iff. exists malformed. split; [reflexivity|assumption]. }
    destruct Hthrow as [m Hm]. rewrite Hm. f_equal.
    eapply render_throw. exact Hm.
Qed.

End TaggedTextFacts.

(** A fragment with a malformed child, rendered with a tag component that
    shows the tag itself. *)
Lemma render_structural_witness :
  TaggedTextTree.InteractiveTaggedText (fun _ _ (t : nat) => t) (mkPos "a.lean" 0 0)
    (TaggedTextTree.append
       [TaggedTextTree.text "x"; TaggedTextTree.malformed;
        TaggedTextTree.tag 1 (TaggedTextTree.text "y")])
  = Throw TaggedTextTree.malformed_message.
Proof.
  apply (render_structural (fun _ _ (t : nat) => t) (mkPos "a.lean" 0 0)).
  simpl. right. left. reflexivity.
Defined.

(** ** The memoising wrapper *)

Section LazyFacts.

Import Lazy.

Context {W T : Type}.
Variable f : W -> Run W T.



End LazyFacts.



(** A thunk that throws once is entered a second time, and only then are
    its calls served from the box. *)
Lemma flaky_thunk_recovers :
  Lazy.calls Lazy.flaky 1 [id; id; id] (Lazy.lazy 0)
  = Some ([Throw "boom"; Ok "value"; Ok "value"],
          Lazy.mkCell (Some "value") 2 2).
Proof. reflexivity. Qed.

(** ** Diagnostics *)

Section DiagnosticsFacts.

Import Diagnostics.

Context {MsgEmbed : Type}.

Lemma toInteractive_nonempty (raw : list Diagnostic) :
  raw <> [] -> map (@toInteractive MsgEmbed) raw <> [].
Proof. destruct raw; [congruence|discriminate]. Qed.

Lemma toInteractive_carries (raw : list Diagnostic) :
  Forall2 Exposure.carries raw (map (@toInteractive MsgEmbed) raw).
Proof.
  induction raw as [|d raw IH]; constructor; [|exact IH].
  repeat split.
Qed.

(** C7. For a file with a non-empty raw list, when the interactive fetch
    resolves to the empty list or is rejected, both consumers expose the raw
    diagnostics in interactive shape: the thunk of [AllMessages] resolves to,
    and [useMessagesForFile] ends with, a list that has for each raw
    diagnostic, in order, an entry with its range, full range and severity and
    its message as plain text; that list is not empty. *)
Theorem empty_upgrade_keeps_raw
    (hasWidgetsV1 : bool) (fetch : Fetched MsgEmbed)
    (dc : gmap string (list Diagnostic)) (u : string)
    (raw : list Diagnostic) (old : list (InteractiveDiagnostic MsgEmbed)) :
  dc !! u = Some raw ->
  raw <> [] ->
  fetch = Resolved [] \/ (exists code, fetch = Rejected code) ->
  Forall2 Exposure.carries raw (fst (iDiags0 hasWidgetsV1 fetch (rawFor dc u))) /\
  Forall2 Exposure.carries raw
    (diagsAfter old (updateDiags hasWidgetsV1 fetch dc u)) /\
  fst (iDiags0 hasWidgetsV1 fetch (rawFor dc u)) <> [] /\
  diagsAfter old (updateDiags hasWidgetsV1 fetch dc u) <> [].
Proof.
  intros Hdc Hraw Hfetch.
  assert (Hfor : rawFor dc u = raw) by (unfold rawFor; rewrite Hdc; reflexivity).
  assert (H1 : fst (iDiags0 hasWidgetsV1 fetch (rawFor dc u))
               = map toInteractive raw).
  { unfold iDiags0. rewrite Hfor. destruct hasWidgetsV1; [|reflexivity].
    destruct Hfetch as [->|[code ->]]; reflexivity. }
  assert (H2 : diagsAfter old (updateDiags hasWidgetsV1 fetch dc u)
               = map toInteractive raw).
  { unfold updateDiags, diagsAfter. rewrite Hfor.
    destruct hasWidgetsV1; [|reflexivity].
    destruct Hfetch as [->|[code ->]]; reflexivity. }
  rewrite H1, H2.
  repeat split; try apply toInteractive_carries;
    apply toInteractive_nonempty; exact Hraw.
Qed.

(** C8. A [publishDiagnostics] event puts exactly its list under its uri,
    whatever stood there, and leaves the entry of every other uri as it
    was. *)
Theorem publish_replaces_entry
    (params : PublishDiagnosticsParams) (diags : gmap string (list Diagnostic)) :
  publishDiagnostics params diags !! params_uri params
    = Some (params_diagnostics params) /\
  (forall prior,
      publishDiagnostics params (<[params_uri params := prior]> diags)
      = publishDiagnostics params diags) /\
  (forall other, other <> params_uri params ->
      publishDiagnostics params diags !! other = diags !! other).
Proof.
  unfold publishDiagnostics. split; [|split].
  - apply lookup_insert_eq.
  - intros prior. apply insert_insert_eq.
  - intros other Hne. apply lookup_insert_ne. congruence.
Qed.

End DiagnosticsFacts.

Lemma empty_upgrade_keeps_raw_witness :
  Forall2 Exposure.carries [Samples.diagnostic]
    (fst (Diagnostics.iDiags0 true (@Diagnostics.Resolved unit [])
            (Diagnostics.rawFor {["a.lean" := [Samples.diagnostic]]} "a.lean"))) /\
  Forall2 Exposure.carries [Samples.diagnostic]
    (Diagnostics.diagsAfter []
       (Diagnostics.updateDiags true (@Diagnostics.Resolved unit [])
          {["a.lean" := [Samples.diagnostic]]} "a.lean")) /\
  fst (Diagnostics.iDiags0 true (@Diagnostics.Resolved unit [])
         (Diagnostics.rawFor {["a.lean" := [Samples.diagnostic]]} "a.lean")) <> [] /\
  Diagnostics.diagsAfter []
    (Diagnostics.updateDiags true (@Diagnostics.Resolved unit [])
       {["a.lean" := [Samples.diagnostic]]} "a.lean") <> [].
Proof.
  apply (empty_upgrade_keeps_raw true (Diagnostics.Resolved [])
           {["a.lean" := [Samples.diagnostic]]} "a.lean" [Samples.diagnostic] []).
  - reflexivity.
  - discriminate.
  - left. reflexivity.
Defined.

Lemma publish_replaces_entry_witness :
  Diagnostics.publishDiagnostics (Diagnostics.mkParams "a.lean" [])
    {["b.lean" := [Samples.diagnostic]]} !! "b.lean"
  = ({["b.lean" := [Samples.diagnostic]]} : gmap string (list Diagnostics.Diagnostic)) !! "b.lean".
Proof.
  apply (publish_replaces_entry (Diagnostics.mkParams "a.lean" [])
           {["b.lean" := [Samples.diagnostic]]}).
  discriminate.
Defined.

(** ** The throttle hook *)

Section ThrottleFacts.

Import Throttle.

Context {A : Type}.

Lemma takeDue_single (t d : nat) :
  takeDue t [d] = if d <=? t then Some [] else None.
Proof. simpl. destruct (d <=? t); reflexivity. Qed.

Lemma fire_callbackRef (h : hook A) :
  callbackRef (fst (fire h)) = callbackRef h.
Proof. unfold fire. destruct (takeDue _ _); reflexivity. Qed.

Lemma trigger_callbackRef (ms : nat) (h : hook A) :
  callbackRef (trigger ms h) = callbackRef h.
Proof. unfold trigger. destruct (waiting h); reflexivity. Qed.

Lemma step_callbackRef (s : sim A) (e : event A) :
  callbackRef (the_hook (step s e))
  = match e with Render cb => Some cb | _ => callbackRef (the_hook s) end.
Proof.
  destruct e; simpl; try reflexivity.
  - apply trigger_callbackRef.
  - pose proof (fire_callbackRef (the_hook s)) as H.
    destruct (fire (the_hook s)) as [h' [cb|]]; exact H.
Qed.

Lemma run_callbackRef (es : list (event A)) (s : sim A) :
  callbackRef (the_hook (run s es)) = latest es (callbackRef (the_hook s)).
Proof.
  revert s. induction es as [|e es IH]; intros s; [reflexivity|].
  unfold run, latest in *. simpl. rewrite IH, step_callbackRef.
  destruct e; reflexivity.
Qed.

Lemma run_app (s : sim A) (es1 es2 : list (event A)) :
  run s (es1 ++ es2) = run (run s es1) es2.
Proof. apply fold_left_app. Qed.

(** What the hook maintains under calls that all use the interval [ms]: a
    timer is set exactly while [waiting] holds, its deadline is at least [ms]
    after the last invocation, and no invocation lies in the future. *)
Definition paced (ms : nat) (s : sim A) : Prop :=
  let h := the_hook s in
  spaced ms (map fst (started s)) /\
  (forall t, head (map fst (started s)) = Some t -> t <= now h) /\
  (if waiting h
   then exists d, timers h = [d] /\
                  (forall t, head (map fst (started s)) = Some t -> t + ms <= d)
   else timers h = []).

Lemma paced_start (ms t0 : nat) : paced ms (start t0).
Proof. repeat split; simpl; intros; discriminate. Qed.

Lemma paced_step (ms : nat) (s : sim A) (e : event A) :
  match e with Call ms' => ms' = ms | _ => True end ->
  paced ms s -> paced ms (step s e).
Proof.
  intros He (Hsp & Hle & Hw).
  destruct s as [[w cr ts t] st rn]. unfold paced. simpl in *.
  destruct e as [cb|ms'|d| |]; simpl in *.
  - repeat split; assumption.
  - subst ms'. unfold trigger. simpl. destruct w; simpl.
    + repeat split; assumption.
    + subst ts. repeat split; try assumption. simpl.
      exists (t + ms). split; [reflexivity|].
      intros t1 Ht1. specialize (Hle t1 Ht1). lia.
  - repeat split; try assumption.
    intros t1 Ht1. specialize (Hle t1 Ht1). lia.
  - unfold fire. simpl. destruct w.
    + destruct Hw as (d & -> & Hd). rewrite takeDue_single.
      destruct (d <=? t) eqn:Edt; simpl.
      * apply Nat.leb_le in Edt.
        destruct cr as [cb|]; simpl.
        -- repeat split; simpl.
           ++ destruct st as [|[t1 a1] st']; simpl in *; [exact I|].
              split; [|exact Hsp]. specialize (Hd t1 eq_refl). lia.
           ++ intros t1 [= <-]. lia.
        -- repeat split; assumption.
      * repeat split; try assumption. exists d. split; [reflexivity|exact Hd].
    + subst ts. simpl. repeat split; assumption.
  - repeat split; assumption.
Qed.

Lemma paced_run (ms : nat) (es : list (event A)) (s : sim A) :
  uniform ms es -> paced ms s -> paced ms (run s es).
Proof.
  revert s. induction es as [|e es IH]; intros s Hu Hs; [exact Hs|].
  apply Forall_cons_1 in Hu as [He Hu].
  apply IH; [exact Hu|]. apply paced_step; assumption.
Qed.

(** Calls made during a wait change nothing. *)
Lemma calls_while_waiting (ms k : nat) (s : sim A) :
  waiting (the_hook s) = true -> run s (repeat (Call ms) k) = s.
Proof.
  intros Hw.
  assert (Hstep : step s (Call ms) = s).
  { destruct s as [h st rn]. simpl in *. unfold trigger. rewrite Hw.
    reflexivity. }
  induction k as [|k IH]; [reflexivity|].
  change (run (step s (Call ms)) (repeat (Call ms) k) = s).
  rewrite Hstep. exact IH.
Qed.

(** A wait that runs its course: the due timer invokes the stored callback. *)
Lemma wait_then_fire (cb : A) (t ms : nat) (st : list (nat * A)) (rn : nat) :
  run {| the_hook := {| waiting := true; callbackRef := Some cb;
                        timers := [t + ms]; now := t |};
         started := st; running := rn |}
      [Advance ms; Fire]
  = {| the_hook := {| waiting := false; callbackRef := Some cb;
                      timers := []; now := t + ms |};
       started := (t + ms, cb) :: st; running := S rn |}.
Proof.
  unfold run. simpl. unfold fire. simpl. rewrite Nat.leb_refl. reflexivity.
Qed.

(** C4, as the code has it. Under any sequence of renders, trigger calls with
    interval [ms], passing time, timer expiries and settling actions: at most
    one timer is pending; the action is never invoked twice within [ms]
    milliseconds; calls made during a wait change nothing; and a call made
    while no wait is pending, whether or not earlier actions are still
    running, starts a wait of [ms] after which the action is invoked exactly
    once, however many further calls arrive during that wait. *)
Theorem throttle_paces (ms t0 : nat) (es : list (event A)) :
  uniform ms es ->
  let s := run (start t0) es in
  let h := the_hook s in
  length (timers h) <= 1 /\
  spaced ms (map fst (started s)) /\
  (waiting h = true -> forall k, run s (repeat (Call ms) k) = s) /\
  (waiting h = false -> forall cb k,
      callbackRef h = Some cb ->
      timers (the_hook (step s (Call ms))) = [now h + ms] /\
      let s' := run s (Call ms :: repeat (Call ms) k ++ [Advance ms; Fire]) in
      started s' = (now h + ms, cb) :: started s /\
      running s' = S (running s) /\
      waiting (the_hook s') = false /\
      timers (the_hook s') = []).
Proof.
  intros Hu s h.
  pose proof (paced_run ms es (start t0) Hu (paced_start ms t0)) as (Hsp & _ & Hw).
  fold s in Hsp, Hw. fold h in Hw.
  split; [|split; [exact Hsp|split]].
  - destruct (waiting h); [destruct Hw as (d & -> & _)|rewrite Hw]; simpl; lia.
  - intros Hwait k. apply calls_while_waiting. exact Hwait.
  - intros Hidle cb k Hcb. rewrite Hidle in Hw.
    assert (Hcall : step s (Call ms)
                    = {| the_hook := {| waiting := true; callbackRef := Some cb;
                                        timers := [now h + ms]; now := now h |};
                         started := started s; running := running s |}).
    { simpl. fold h. unfold trigger. rewrite Hidle, Hw, Hcb. reflexivity. }
    split; [rewrite Hcall; reflexivity|].
    change (run s (Call ms :: repeat (Call ms) k ++ [Advance ms; Fire]))
      with (run (step s (Call ms)) (repeat (Call ms) k ++ [Advance ms; Fire])).
    rewrite run_app, calls_while_waiting by (rewrite Hcall; reflexivity).
    rewrite Hcall, wait_then_fire. simpl. auto.
Qed.

(** C9. After any sequence of events the callback stored in the hook is the
    one supplied by the latest render; so when a timer is due, the expiry
    invokes that latest action, at the current time, whichever action was
    current when the wait began. *)
Theorem fire_uses_latest_action (t0 : nat) (es : list (event A)) :
  let s := run (start t0) es in
  let h := the_hook s in
  callbackRef h = latest es None /\
  (forall rest, takeDue (now h) (timers h) = Some rest ->
      snd (fire h) = latest es None /\
      forall cb, latest es None = Some cb ->
        started (step s Fire) = (now h, cb) :: started s).
Proof.
  intros s h.
  assert (Hcb : callbackRef h = latest es None).
  { unfold h, s. rewrite run_callbackRef. reflexivity. }
  split; [exact Hcb|].
  intros rest Hdue.
  assert (Hfire : fire h = ({| waiting := false; callbackRef := callbackRef h;
                               timers := rest; now := now h |}, callbackRef h)).
  { unfold fire. rewrite Hdue. reflexivity. }
  split.
  - rewrite Hfire. exact Hcb.
  - intros cb Hlatest. simpl. fold h. rewrite Hfire, Hcb, Hlatest. reflexivity.
Qed.

End ThrottleFacts.

(** ** The controller *)

Section InfoFacts.

Import Info.

Variable useRpcSessionAtPos : DocumentPosition -> RpcSessionAtPos.
Variable mapRpcError : Z -> string -> string.

Local Abbreviation closure := (Info.closure useRpcSessionAtPos).
Local Abbreviation InfoAux := (Info.InfoAux useRpcSessionAtPos).
Local Abbreviation resume := (Info.resume mapRpcError).
Local Abbreviation step := (Info.step useRpcSessionAtPos mapRpcError).
Local Abbreviation run := (Info.run useRpcSessionAtPos mapRpcError).
Local Abbreviation consistent := (Info.consistent useRpcSessionAtPos).

Lemma lookupRequest_fresh (id : nat) (c : Closure) (l : list (nat * Closure)) :
  Forall (fun r => fst r < id) l ->
  lookupRequest id (l ++ [(id, c)]) = Some c.
Proof.
  induction 1 as [|[i c'] l Hi _ IH]; simpl.
  - rewrite Nat.eqb_refl. reflexivity.
  - simpl in Hi. destruct (i =? id) eqn:E; [apply Nat.eqb_eq in E; lia|exact IH].
Qed.

Lemma dropRequest_fresh (id : nat) (c : Closure) (l : list (nat * Closure)) :
  Forall (fun r => fst r < id) l ->
  dropRequest id (l ++ [(id, c)]) = l.
Proof.
  induction 1 as [|[i c'] l Hi _ IH]; simpl.
  - rewrite Nat.eqb_refl. reflexivity.
  - simpl in Hi. destruct (i =? id) eqn:E; [apply Nat.eqb_eq in E; lia|].
    rewrite IH. reflexivity.
Qed.

Lemma dropRequest_bound (id n : nat) (l : list (nat * Closure)) :
  Forall (fun r => fst r < n) l -> Forall (fun r => fst r < n) (dropRequest id l).
Proof.
  induction 1 as [|[i c'] l Hi Hl IH]; simpl; [constructor|].
  destruct (i =? id); [exact Hl|constructor; assumption].
Qed.

Lemma bound_weaken (n : nat) (l : list (nat * Closure)) :
  Forall (fun r => fst r < n) l -> Forall (fun r => fst r < S n) l.
Proof.
  intros H. eapply Forall_impl; [exact H|]. intros r Hr. simpl in *. lia.
Qed.

(** The render after a handler that asked for no commit only stores the new
    callback. *)
Lemma InfoAux_idle (s : state) :
  shouldUpdateDisplay s = false ->
  InfoAux s = setThrottle (Throttle.render (closure s) (throttle s)) s.
Proof. intros H. unfold Info.InfoAux. rewrite H. reflexivity. Qed.

Lemma consistent_trigger (ms : nat) (s : state) :
  consistent s -> consistent (triggerUpdate ms s).
Proof.
  intros (Hcb & Hsh & Ht & Hp).
  destruct s as [p b st g tg uw er rs dp sh [w cr ts t] pd n iss].
  unfold Info.consistent, triggerUpdate, Throttle.trigger in *. simpl in *.
  destruct w; simpl; [tauto|]. subst ts. repeat split; eauto.
Qed.

Lemma consistent_render (s : state) :
  shouldUpdateDisplay s = false ->
  (if Throttle.waiting (throttle s)
   then exists d, Throttle.timers (throttle s) = [d]
   else Throttle.timers (throttle s) = []) ->
  Forall (fun r => fst r < nextId s) (pending s) ->
  consistent (InfoAux s).
Proof.
  intros Hsh Ht Hp. rewrite InfoAux_idle by exact Hsh.
  destruct s as [p b st g tg uw er rs dp sh [w cr ts t] pd n iss].
  unfold Info.consistent. simpl in *. tauto.
Qed.

Lemma consistent_commit (s : state) :
  (if Throttle.waiting (throttle s)
   then exists d, Throttle.timers (throttle s) = [d]
   else Throttle.timers (throttle s) = []) ->
  Forall (fun r => fst r < nextId s) (pending s) ->
  consistent (InfoAux s).
Proof.
  intros Ht Hp.
  destruct s as [p b st g tg uw er rs dp sh [w cr ts t] pd n iss].
  unfold Info.consistent, Info.InfoAux. simpl in *.
  destruct sh; simpl; tauto.
Qed.

Lemma consistent_mount (p : DocumentPosition) (b : bool) (t0 : nat) :
  consistent (mount useRpcSessionAtPos p b t0).
Proof.
  unfold mount. apply consistent_trigger. apply consistent_render; simpl; auto.
Qed.

Lemma consistent_step (s : state) (e : event) :
  consistent s -> consistent (step s e).
Proof.
  intros Hs. pose proof Hs as (Hcb & Hsh & Ht & Hp).
  destruct e as [p|b| |d| |id o]; simpl.
  - destruct (decide (p = pos s)); [exact Hs|].
    apply consistent_trigger. apply consistent_render; assumption.
  - destruct (decide (b = serverIsProcessing s)); [exact Hs|].
    apply consistent_trigger. apply consistent_render; assumption.
  - apply consistent_trigger. exact Hs.
  - destruct s as [p b st g tg uw er rs dp sh [w cr ts t] pd n iss].
    unfold Info.consistent in *. simpl in *. tauto.
  - clear Hs.
    destruct s as [p b st g tg uw er rs dp sh [w cr ts t] pd n iss].
    unfold Throttle.fire, Info.closure in *. simpl in *.
    destruct w.
    + destruct Ht as [d ->]. simpl.
      destruct (d <=? t); simpl.
      * subst cr. apply consistent_render; simpl; auto.
        apply Forall_app. split; [apply bound_weaken; exact Hp|].
        constructor; [simpl; lia|constructor].
      * unfold Info.consistent. simpl. eauto.
    + subst ts. simpl. unfold Info.consistent. simpl. auto.
  - destruct (lookupRequest id (pending s)) as [c|] eqn:El; [|exact Hs].
    assert (Hdrop : Forall (fun r => fst r < nextId s) (dropRequest id (pending s)))
      by (apply dropRequest_bound; exact Hp).
    destruct o as [g' tg' uw'|ex]; simpl.
    + apply consistent_commit; simpl; assumption.
    + destruct (contentModified ex).
      * apply consistent_render.
        -- exact Hsh.
        -- destruct s as [p b st g tg uw er rs dp sh [w cr ts t] pd n iss].
           unfold Throttle.trigger. simpl in *.
           destruct w; simpl; [exact Ht|]. subst ts. eauto.
        -- destruct s as [p b st g tg uw er rs dp sh [w cr ts t] pd n iss].
           simpl in *. exact Hdrop.
      * destruct (errorString mapRpcError ex) as [e|].
        -- apply consistent_commit; simpl; assumption.
        -- apply consistent_render; simpl; assumption.
Qed.

Lemma consistent_run (es : list event) (s : state) :
  consistent s -> consistent (run s es).
Proof.
  revert s. induction es as [|e es IH]; intros s Hs; [exact Hs|].
  apply IH. apply consistent_step. exact Hs.
Qed.

Lemma step_settled (s : state) (id : nat) (c : Closure) (o : Outcome) :
  lookupRequest id (pending s) = Some c ->
  step s (Settled id o) = InfoAux (resume c o (settle id s)).
Proof. intros H. simpl. rewrite H. reflexivity. Qed.

(** The values that reach the branch clearing the error. *)
Lemma errorString_cleared (ex : Js.Thrown) :
  Js.typeofString ex = false ->
  Js.isRpcError ex = false ->
  Js.instanceofError ex = false ->
  Js.isUndefined ex = true \/ Js.serialisesEmpty ex = true ->
  contentModified ex = false /\ errorString mapRpcError ex = None.
Proof.
  intros Hs Hr He Hempty.
  split; [unfold contentModified; rewrite Hr; reflexivity|].
  destruct ex; simpl in *; try discriminate.
  - reflexivity.
  - destruct Hempty as [Hu|Hj]; [discriminate|].
    unfold errorString. rewrite Hj. reflexivity.
Qed.

(** The first half of a cycle: a due timer starts one update for the current
    position. *)
Lemma timer_starts_update (s : state) (rest : list nat) :
  consistent s ->
  Throttle.takeDue (Throttle.now (throttle s)) (Throttle.timers (throttle s))
    = Some rest ->
  let s' := step s TimerDue in
  status s' = InfoStatus.updating /\
  issued s' = (nextId s, pos s) :: issued s /\
  pending s' = pending s ++ [(nextId s, closure s)] /\
  nextId s' = S (nextId s) /\
  pos s' = pos s /\ error s' = error s /\ displayProps s' = displayProps s /\
  Throttle.waiting (throttle s') = false.
Proof.
  intros (Hcb & Hsh & Ht & Hp) Hdue.
  destruct s as [p b st g tg uw er rs dp sh [w cr ts t] pd n iss].
  unfold Info.closure in *. simpl in *. subst sh cr.
  unfold Throttle.fire. simpl. rewrite Hdue. simpl.
  repeat split; reflexivity.
Qed.

(** Only [undefined] and values that serialise to the empty object without
    being [Error] instances reach the clearing branch. *)
Lemma empty_value_cleared (ex : Js.Thrown) :
  Js.instanceofError ex = false ->
  Js.isUndefined ex = true \/ Js.serialisesEmpty ex = true ->
  contentModified ex = false /\ errorString mapRpcError ex = None.
Proof.
  intros He Hempty. apply errorString_cleared; try assumption.
  - destruct ex; try reflexivity.
    destruct Hempty as [H|H]; simpl in H; discriminate H.
  - destruct ex; try reflexivity.
    destruct Hempty as [H|H]; simpl in H; discriminate H.
Qed.

(** C2, as the code has it. When the requests of an update are rejected with
    a value that is [undefined] or serialises to the empty object and is not
    an [Error] instance, the handler clears the error cell and touches neither
    the status nor the snapshot, so what the panel shows is what it showed
    before; a whole cycle that ends this way leaves the status at [updating],
    where its start put it, and shows no error line.  An [Error] instance
    serialises to the empty object too, but it is reported: status [error],
    with its [toString()] text. *)
Theorem empty_error_clears :
  (forall ex,
      Js.instanceofError ex = false ->
      Js.isUndefined ex = true \/ Js.serialisesEmpty ex = true ->
      (forall s id c,
          consistent s ->
          lookupRequest id (pending s) = Some c ->
          let s' := step s (Settled id (RejectedWith ex)) in
          error s' = None /\ status s' = status s /\
          displayProps s' = displayProps s /\ issued s' = issued s /\
          forall n, Panel.InfoDisplay (displayProps s') (status s') n
                    = Panel.InfoDisplay (displayProps s) (status s) n) /\
      (forall s rest,
          consistent s ->
          Throttle.takeDue (Throttle.now (throttle s))
            (Throttle.timers (throttle s)) = Some rest ->
          let s' := run s [TimerDue; Settled (nextId s) (RejectedWith ex)] in
          error s' = None /\ status s' = InfoStatus.updating /\
          displayProps s' = displayProps s /\ pending s' = pending s /\
          forall n, Panel.v_error
                      (Panel.InfoDisplay (displayProps s') (status s') n)
                    = false)) /\
  (forall s id c name message,
      lookupRequest id (pending s) = Some c ->
      let s' := step s (Settled id (RejectedWith (Js.ErrorObject name message))) in
      Js.serialisesEmpty (Js.ErrorObject name message) = true /\
      status s' = InfoStatus.error /\
      error s'
      = Some (String.append "Error fetching goals: " (Js.toString name message))).
Proof.
  split.
  - intros ex He Hempty.
    destruct (empty_value_cleared ex He Hempty) as [Hcm Hes].
    assert (Hhandler : forall s id c,
        consistent s ->
        lookupRequest id (pending s) = Some c ->
        let s' := step s (Settled id (RejectedWith ex)) in
        error s' = None /\ status s' = status s /\
        displayProps s' = displayProps s /\ issued s' = issued s /\
        pending s' = dropRequest id (pending s)).
    { intros s id c (_ & Hsh & _) Hl s'. unfold s'.
      rewrite (step_settled s id c _ Hl). unfold Info.resume. rewrite Hcm, Hes.
      rewrite InfoAux_idle by exact Hsh. repeat split; reflexivity. }
    split.
    + intros s id c Hc Hl. destruct (Hhandler s id c Hc Hl) as (H1&H2&H3&H4&_).
      cbv zeta. rewrite H2, H3. auto.
    + intros s rest Hc Hdue.
      destruct (timer_starts_update s rest Hc Hdue)
        as (Hst & Hiss & Hpd & Hn & Hpos & Her & Hdp & Hw).
      change (run s [TimerDue; Settled (nextId s) (RejectedWith ex)])
        with (step (step s TimerDue) (Settled (nextId s) (RejectedWith ex))).
      assert (Hl : lookupRequest (nextId s) (pending (step s TimerDue))
                   = Some (closure s)).
      { rewrite Hpd. apply lookupRequest_fresh. apply Hc. }
      destruct (Hhandler (step s TimerDue) (nextId s) (closure s)
                  (consistent_step s TimerDue Hc) Hl) as (H1 & H2 & H3 & H4 & H5).
      cbv zeta. rewrite H2, H3, Hst, Hdp.
      split; [exact H1|split; [reflexivity|split; [reflexivity|split]]].
      * rewrite H5, Hpd. apply dropRequest_fresh. apply Hc.
      * intros n. reflexivity.
  - intros s id c name message Hl. cbv zeta.
    rewrite (step_settled s id c _ Hl).
    repeat split; reflexivity.
Qed.

Lemma contentModified_true (msg : string) :
  contentModified (Js.RpcError Diagnostics.ContentModified msg) = true.
Proof. reflexivity. Qed.

(** The handler of a content-modified rejection: the request is gone and the
    trigger of the callback that made it has been called. *)
Lemma content_modified_step (s : state) (id : nat) (c : Closure) (msg : string) :
  consistent s ->
  lookupRequest id (pending s) = Some c ->
  step s (Settled id (RejectedWith (Js.RpcError Diagnostics.ContentModified msg)))
  = setThrottle
      (Throttle.render (closure s) (Throttle.trigger (c_ms c) (throttle s)))
      (settle id s).
Proof.
  intros (_ & Hsh & _) Hl. rewrite (step_settled s id c _ Hl).
  unfold Info.resume. rewrite contentModified_true.
  rewrite InfoAux_idle by exact Hsh. reflexivity.
Qed.

(** The second half of a cycle that succeeds: results stored, status [ready],
    snapshot rebuilt from the current prop and cells. *)
Lemma fulfilled_step (s : state) (id : nat) (c : Closure)
    (g : option InteractiveGoals) (t : option InteractiveGoal)
    (w : option UserWidgets) :
  lookupRequest id (pending s) = Some c ->
  let s' := step s (Settled id (Fulfilled g t w)) in
  status s' = InfoStatus.ready /\
  goals s' = g /\ termGoal s' = t /\ userWidgets s' = w /\
  rpcSess s' = c_rpcSess0 c /\ error s' = error s /\ pos s' = pos s /\
  issued s' = issued s /\
  displayProps s'
  = {| dp_pos := pos s; dp_goals := g; dp_termGoal := t; dp_error := error s;
       dp_rpcSess := c_rpcSess0 c; dp_userWidgets := w |}.
Proof.
  intros Hl s'. unfold s'. rewrite (step_settled s id c _ Hl).
  repeat split; reflexivity.
Qed.

(** C3, as the code has it. A content-modified rejection makes the handler
    call the throttled trigger and return: it sets no error, leaves status and
    snapshot alone and sends nothing; afterwards a wait is pending, the one
    that was already running or else a new one of the trigger's interval.
    When no wait was running, the retry is the expiry of that new wait, one
    interval later: it sends exactly one request, for the position then
    current, with status [updating], and the success of that request gives
    status [ready] and a snapshot for that position. *)
Theorem content_modified_retries_through_throttle (msg : string) :
  let rejected := fun id =>
    Settled id (RejectedWith (Js.RpcError Diagnostics.ContentModified msg)) in
  (forall s id c,
      consistent s ->
      lookupRequest id (pending s) = Some c ->
      let s1 := step s (rejected id) in
      status s1 = status s /\ error s1 = error s /\
      displayProps s1 = displayProps s /\ issued s1 = issued s /\
      pending s1 = dropRequest id (pending s) /\
      Throttle.waiting (throttle s1) = true /\
      Throttle.timers (throttle s1)
      = if Throttle.waiting (throttle s) then Throttle.timers (throttle s)
        else [Throttle.now (throttle s) + c_ms c]) /\
  (forall s id c g t w,
      consistent s ->
      lookupRequest id (pending s) = Some c ->
      Throttle.waiting (throttle s) = false ->
      let s2 := run s [rejected id; Elapsed (c_ms c)] in
      let s3 := step s2 TimerDue in
      let s4 := step s3 (Settled (nextId s) (Fulfilled g t w)) in
      status s2 = status s /\ issued s2 = issued s /\
      status s3 = InfoStatus.updating /\
      issued s3 = (nextId s, pos s) :: issued s /\
      status s4 = InfoStatus.ready /\ issued s4 = issued s3 /\
      displayProps s4
      = {| dp_pos := pos s; dp_goals := g; dp_termGoal := t;
           dp_error := error s; dp_rpcSess := useRpcSessionAtPos (pos s);
           dp_userWidgets := w |}).
Proof.
  intros rejected. split.
  - intros s id c Hc Hl s1. unfold s1, rejected.
    rewrite (content_modified_step s id c msg Hc Hl).
    destruct Hc as (_ & _ & Ht & _).
    destruct s as [p b st g tg uw er rs dp sh [w cr ts t] pd n iss].
    unfold Throttle.trigger. simpl in *.
    destruct w; simpl; repeat split; try reflexivity.
    subst ts. reflexivity.
  - intros s id c g t w Hc Hl Hidle s2 s3 s4.
    pose proof Hc as (Hcb & Hsh & Ht & Hp). rewrite Hidle in Ht.
    assert (E2 : s2 = setThrottle
                        {| Throttle.waiting := true;
                           Throttle.callbackRef := Some (closure s);
                           Throttle.timers :=
                             [Throttle.now (throttle s) + c_ms c];
                           Throttle.now := Throttle.now (throttle s) + c_ms c |}
                        (settle id s)).
    { unfold s2, rejected.
      change (run s [?e1; ?e2]) with (step (step s e1) e2).
      rewrite (content_modified_step s id c msg Hc Hl).
      destruct s as [p b st g0 tg uw er rs dp sh [w0 cr ts t0] pd n iss].
      unfold Throttle.trigger. simpl in *. subst w0 ts. reflexivity. }
    assert (Hc2 : consistent s2).
    { unfold s2. apply consistent_run. exact Hc. }
    assert (Hdue : Throttle.takeDue (Throttle.now (throttle s2))
                     (Throttle.timers (throttle s2)) = Some []).
    { rewrite E2. simpl. rewrite Nat.leb_refl. reflexivity. }
    destruct (timer_starts_update s2 [] Hc2 Hdue)
      as (Hst3 & Hiss3 & Hpd3 & Hn3 & Hpos3 & Her3 & Hdp3 & _).
    fold s3 in Hst3, Hiss3, Hpd3, Hn3, Hpos3, Her3, Hdp3.
    assert (Hfields : status s2 = status s /\ issued s2 = issued s /\
                      nextId s2 = nextId s /\ pos s2 = pos s /\
                      error s2 = error s /\
                      pending s2 = dropRequest id (pending s) /\
                      closure s2 = closure s).
    { rewrite E2. repeat split; reflexivity. }
    destruct Hfields as (Hst2 & Hiss2 & Hn2 & Hpos2 & Her2 & Hpd2 & Hcl2).
    assert (Hl3 : lookupRequest (nextId s) (pending s3) = Some (closure s)).
    { rewrite Hpd3, Hn2, Hpd2, Hcl2. apply lookupRequest_fresh.
      apply dropRequest_bound. exact Hp. }
    destruct (fulfilled_step s3 (nextId s) (closure s) g t w Hl3)
      as (Hst4 & _ & _ & _ & _ & _ & _ & Hiss4 & Hdp4).
    fold s4 in Hst4, Hiss4, Hdp4.
    repeat split; try assumption.
    + rewrite Hiss3, Hn2, Hpos2, Hiss2. reflexivity.
    + rewrite Hdp4, Hpos3, Hpos2, Her3, Her2. reflexivity.
Qed.

End InfoFacts.

(** ** The code at concrete inputs *)

Lemma consistent_requested : Info.consistent Samples.sessionAt Samples.requested.
Proof. apply consistent_run. apply consistent_mount. Qed.

Lemma requested_pending :
  Info.lookupRequest 0 (Info.pending Samples.requested)
  = Some (Info.mkClosure Samples.P1 10 50).
Proof. vm_compute. reflexivity. Qed.

Lemma error_instance_serialises_empty :
  Spec.emptySerialisation (Js.ErrorObject "Error" "boom").
Proof. right. reflexivity. Qed.

(** C1. A late reply is not discarded. With the update for [P1] still in
    flight the cursor moves to [P2], whose update is answered first and
    committed; when the reply for [P1] then arrives it is stored and committed
    like any other, and the snapshot pairs the position [P2] with the goals
    and the session of [P1]. *)
Theorem late_reply_overwrites_snapshot :
  Info.lookupRequest 0 (Info.pending Samples.overtaken)
    = Some (Info.mkClosure Samples.P1 10 50) /\
  Info.InfoDisplay Samples.overtaken
    = (Info.mkDisplay Samples.P2 (Some ["goal at 20"]) None None 20 None,
       InfoStatus.ready, 20) /\
  Info.InfoDisplay (Samples.step Samples.overtaken (Info.Settled 0 Samples.G1))
    = (Info.mkDisplay Samples.P2 (Some ["goal at 10"]) None None 10 None,
       InfoStatus.ready, 10).
Proof. split; [|split]; vm_compute; reflexivity. Qed.

(** C5. The snapshot is one value, but its fields need not come from one
    update. With the update for [P1] in flight the cursor moves to [P2]; the
    reply for [P1] arrives before any request for [P2] has been sent, and the
    commit builds the snapshot from the current position [P2] and the goals
    just stored for [P1]. *)
Theorem commit_mixes_position_and_goals :
  Info.issued
    (Samples.run Samples.requested
       [Info.CursorMoved Samples.P2; Info.Settled 0 Samples.G1])
    = [(0, Samples.P1)] /\
  Info.displayProps
    (Samples.run Samples.requested
       [Info.CursorMoved Samples.P2; Info.Settled 0 Samples.G1])
    = Info.mkDisplay Samples.P2 (Some ["goal at 10"]) None None 10 None /\
  Info.displayProps (Samples.run Samples.requested [Info.CursorMoved Samples.P2])
    = Info.mkDisplay Samples.P1 None None None 10 None.
Proof. split; [|split]; vm_compute; reflexivity. Qed.

(** C2 as the specification words it fails, in three ways.  An [Error]
    instance serialises to the empty object, yet the handler reports it and
    sets the status [error].  A cycle started from [ready] that fails with the
    empty object leaves the status at [updating], not at what it was before
    the request.  And with two updates in flight, when the first fails with a
    message and the second with the empty object, the error cell is cleared
    but the snapshot keeps the text and the status stays [error]: the error
    line is still shown. *)
Lemma empty_error_claim_fails :
  ~ Spec.emptyErrorSuppressed Samples.sessionAt Samples.rpcMessage /\
  (Info.status Scenes.answered = InfoStatus.ready /\
   Info.status Scenes.emptyFailure = InfoStatus.updating) /\
  (Info.error Scenes.bothFailed = None /\
   Panel.v_error
     (Panel.InfoDisplay (Info.displayProps Scenes.bothFailed)
        (Info.status Scenes.bothFailed) 0) = true).
Proof.
  split; [|split; split; vm_compute; reflexivity].
  intros H.
  pose proof (H Samples.requested 0 (Info.mkClosure Samples.P1 10 50)
                (Js.ErrorObject "Error" "boom") consistent_requested
                requested_pending error_instance_serialises_empty) as H'.
  cbv zeta in H'. destruct H' as [Herr _].
  vm_compute in Herr. discriminate Herr.
Qed.

(** An empty plain object, rejected while the first update is in flight. *)
Lemma empty_error_clears_witness :
  Info.error
    (Info.step Samples.sessionAt Samples.rpcMessage Samples.requested
       (Info.Settled 0 (Info.RejectedWith (Js.PlainObject [])))) = None /\
  Info.status
    (Info.step Samples.sessionAt Samples.rpcMessage Samples.requested
       (Info.Settled 0 (Info.RejectedWith (Js.PlainObject []))))
  = Info.status Samples.requested.
Proof.
  pose proof (proj1 (proj1 (empty_error_clears Samples.sessionAt Samples.rpcMessage)
                       (Js.PlainObject []) eq_refl (or_intror eq_refl))
                Samples.requested 0 (Info.mkClosure Samples.P1 10 50)
                consistent_requested requested_pending) as H.
  cbv zeta in H. destruct H as (H1 & H2 & _). split; [exact H1|exact H2].
Defined.

(** C3 as the specification words it fails: the handler of a content-modified
    rejection sends nothing; the record of requests is as before. *)
Lemma retry_is_not_immediate :
  ~ Spec.retriesImmediately Samples.sessionAt Samples.rpcMessage.
Proof.
  intros H.
  pose proof (H Samples.requested 0 (Info.mkClosure Samples.P1 10 50)
                "content modified" consistent_requested requested_pending) as H'.
  vm_compute in H'. discriminate H'.
Qed.

(** The retry after a move of the cursor goes to the new position. *)
Lemma retry_follows_cursor :
  Info.issued
    (Samples.run Samples.requested
       [Info.Settled 0
          (Info.RejectedWith (Js.RpcError Diagnostics.ContentModified "content modified"));
        Info.CursorMoved Samples.P2; Info.Elapsed 50; Info.TimerDue])
  = [(1, Samples.P2); (0, Samples.P1)].
Proof. vm_compute. reflexivity. Qed.

Lemma requested_idle :
  Throttle.waiting (Info.throttle Samples.requested) = false.
Proof. vm_compute. reflexivity. Qed.

(** The first update is rejected with content-modified; the retry leaves
    after the wait of 50 ms, for the position of the cursor. *)
Lemma content_modified_retries_through_throttle_witness :
  Info.issued
    (Info.step Samples.sessionAt Samples.rpcMessage
       (Info.run Samples.sessionAt Samples.rpcMessage Samples.requested
          [Info.Settled 0
             (Info.RejectedWith
                (Js.RpcError Diagnostics.ContentModified "content modified"));
           Info.Elapsed (Info.c_ms (Info.mkClosure Samples.P1 10 50))])
       Info.TimerDue)
  = (Info.nextId Samples.requested, Info.pos Samples.requested)
      :: Info.issued Samples.requested.
Proof.
  pose proof (proj2 (content_modified_retries_through_throttle
                       Samples.sessionAt Samples.rpcMessage "content modified")
                Samples.requested 0 (Info.mkClosure Samples.P1 10 50)
                (Some ["goal at 10"]) None None
                consistent_requested requested_pending requested_idle) as H.
  cbv zeta in H. destruct H as (_ & _ & _ & H & _). exact H.
Defined.

(** C4 as the specification words it fails: while the action started by the
    first wait is still running, a call starts a second wait. *)
Lemma call_during_action_queues :
  ~ Spec.coalescesWhileOutstanding string 50.
Proof.
  intros H.
  specialize (H 0
    [Throttle.Render "a"; Throttle.Call 50; Throttle.Advance 50; Throttle.Fire]).
  assert (Hu : Throttle.uniform 50
    [Throttle.Render "a"; Throttle.Call 50; Throttle.Advance 50; Throttle.Fire])
    by (repeat constructor).
  specialize (H Hu (or_intror (Nat.lt_0_1))).
  vm_compute in H. discriminate H.
Qed.

(** The two actions then run at the same time. *)
Lemma actions_overlap :
  Throttle.running Samples.busy = 1 /\
  Throttle.running
    (Throttle.run Samples.busy
       [Throttle.Call 50; Throttle.Advance 50; Throttle.Fire]) = 2 /\
  Throttle.started
    (Throttle.run Samples.busy
       [Throttle.Call 50; Throttle.Advance 50; Throttle.Fire])
  = [(100, "a"); (50, "a")].
Proof. split; [|split]; vm_compute; reflexivity. Qed.

(** Three calls in a row, then the wait and the expiry. *)
Lemma throttle_paces_witness :
  Throttle.spaced 50
    (map fst
       (Throttle.started
          (Throttle.run (Throttle.start 0)
             [Throttle.Render "a"; Throttle.Call 50; Throttle.Call 50;
              Throttle.Call 50; Throttle.Advance 50; Throttle.Fire;
              Throttle.Call 50; Throttle.Advance 70; Throttle.Fire]))).
Proof.
  apply (throttle_paces 50 0
           [Throttle.Render "a"; Throttle.Call 50; Throttle.Call 50;
            Throttle.Call 50; Throttle.Advance 50; Throttle.Fire;
            Throttle.Call 50; Throttle.Advance 70; Throttle.Fire]).
  repeat constructor.
Defined.

(** The action is rebound to [b] while the wait started under [a] is pending:
    the expiry invokes [b]. *)
Lemma fire_uses_latest_action_witness :
  Throttle.started
    (Throttle.step
       (Throttle.run (Throttle.start 0)
          [Throttle.Render "a"; Throttle.Call 50; Throttle.Render "b";
           Throttle.Advance 50])
       Throttle.Fire)
  = [(50, "b")].
Proof.
  apply (proj2 (proj2 (fire_uses_latest_action 0
           [Throttle.Render "a"; Throttle.Call 50; Throttle.Render "b";
            Throttle.Advance 50]) [] eq_refl) "b" eq_refl).
Defined.

(** * Part III: further properties of the code *)

(** ** Tagged text *)

Section ShapeFacts.

Import TaggedTextTree.

Context {T R : Type}.
Variable InnerTagUi : DocumentPosition -> TaggedText T -> T -> R.

Lemma collect_app (rs1 rs2 : list (result (list (Piece R)))) :
  collect (rs1 ++ rs2)
  = match collect rs1 with
    | Ok o1 => match collect rs2 with
               | Ok o2 => Ok (o1 ++ o2)
               | Throw m => Throw m
               end
    | Throw m => Throw m
    end.
Proof.
  induction rs1 as [|[r|m] rs1 IH]; simpl.
  - destruct (collect rs2); reflexivity.
  - rewrite IH. destruct (collect rs1) as [o1|m1]; [|reflexivity].
    destruct (collect rs2) as [o2|m2]; [|reflexivity].
    rewrite app_assoc. reflexivity.
  - reflexivity.
Qed.

(** X1. The loop throws exactly when an object without a key lies on the way
    from the root through fragments; otherwise it returns the pieces of the
    tree in document order. What lies under a tag is handed to the tag
    component unexamined, malformed or not. *)
Theorem render_characterised (pos : DocumentPosition) (fmt : TaggedText T) :
  InteractiveTaggedText InnerTagUi pos fmt
  = if Shape.spineOk fmt then Ok (Shape.pieces InnerTagUi pos fmt)
    else Throw malformed_message.
Proof.
  induction fmt as [s|l IH|t x _|] using TaggedText_forall_ind;
    try reflexivity.
  rewrite render_append. simpl.
  induction IH as [|a l Ha _ IHl]; [reflexivity|].
  simpl. rewrite Ha.
  destruct (Shape.spineOk a); simpl; [|reflexivity].
  rewrite IHl. destruct (forallb Shape.spineOk l); reflexivity.
Qed.

(** X2. A fragment nested in a fragment renders as if its children stood in
    the outer fragment directly, and a fragment with one child renders as
    that child, throws included. *)
Theorem nested_fragments_flatten (pos : DocumentPosition)
    (l1 l2 l3 : list (TaggedText T)) (x : TaggedText T) :
  InteractiveTaggedText InnerTagUi pos (append (l1 ++ append l2 :: l3))
  = InteractiveTaggedText InnerTagUi pos (append (l1 ++ l2 ++ l3)) /\
  InteractiveTaggedText InnerTagUi pos (append [x])
  = InteractiveTaggedText InnerTagUi pos x.
Proof.
  split.
  - rewrite !render_append, !map_app, !collect_app, map_cons.
    cbn [collect]. rewrite render_append.
    destruct (collect (map (InteractiveTaggedText InnerTagUi pos) l1));
      [|reflexivity].
    destruct (collect (map (InteractiveTaggedText InnerTagUi pos) l2));
      [|reflexivity].
    destruct (collect (map (InteractiveTaggedText InnerTagUi pos) l3));
      reflexivity.
  - rewrite render_append. simpl.
    destruct (InteractiveTaggedText InnerTagUi pos x) as [r|m]; [|reflexivity].
    rewrite app_nil_r. reflexivity.
Qed.

End ShapeFacts.

(** ** Diagnostics *)

Section DiagnosticsMore.

Import Diagnostics.

Context {MsgEmbed : Type}.

(** X3. For the same raw list and the same outcome of the interactive
    request, the thunk of [AllMessages] and the state of [useMessagesForFile]
    hold the same list; it is the fetched list when widgets are supported and
    the fetch resolved to a non-empty list, and the raw list in interactive
    shape in every other case. *)
Theorem consumers_agree (hasWidgetsV1 : bool) (fetch : Fetched MsgEmbed)
    (dc : gmap string (list Diagnostic)) (u : string)
    (old : list (InteractiveDiagnostic MsgEmbed)) :
  diagsAfter old (updateDiags hasWidgetsV1 fetch dc u)
  = fst (iDiags0 hasWidgetsV1 fetch (rawFor dc u)) /\
  fst (iDiags0 hasWidgetsV1 fetch (rawFor dc u))
  = match hasWidgetsV1, fetch with
    | true, Resolved (d :: ds) => d :: ds
    | _, _ => map toInteractive (rawFor dc u)
    end.
Proof.
  unfold diagsAfter, updateDiags, iDiags0.
  destruct hasWidgetsV1; [|split; reflexivity].
  destruct fetch as [[|d ds]|code]; split; reflexivity.
Qed.

(** X4. The fallback list has one entry per raw diagnostic, with the same
    range, full range and severity, and each entry's message renders as the
    raw text alone, without a throw, whatever the tag component. *)
Theorem fallback_is_plain_text {R : Type}
    (InnerTagUi : DocumentPosition -> TaggedTextTree.TaggedText MsgEmbed -> MsgEmbed -> R)
    (pos : DocumentPosition) (raw : list Diagnostic) :
  map i_range (map (@toInteractive MsgEmbed) raw) = map range raw /\
  map i_fullRange (map (@toInteractive MsgEmbed) raw) = map fullRange raw /\
  map i_severity (map (@toInteractive MsgEmbed) raw) = map severity raw /\
  map (fun i => TaggedTextTree.InteractiveTaggedText InnerTagUi pos (i_message i))
      (map (@toInteractive MsgEmbed) raw)
  = map (fun d => Ok [TaggedTextTree.PText (message d)]) raw.
Proof.
  rewrite !map_map. repeat split; apply map_ext; intros d; reflexivity.
Qed.

Lemma lastFor_from (u : string) (evs : list PublishDiagnosticsParams)
    (cur : option (list Diagnostic)) :
  fold_left
    (fun cur p => if String.eqb (params_uri p) u
                  then Some (params_diagnostics p) else cur) evs cur
  = match Runs.lastFor u evs with
    | Some ds => Some ds
    | None => cur
    end.
Proof.
  unfold Runs.lastFor. revert cur.
  induction evs as [|p evs IH]; intros cur; [reflexivity|].
  simpl. rewrite IH. rewrite (IH (if String.eqb _ _ then _ else None)).
  destruct (fold_left _ evs None); [reflexivity|].
  destruct (String.eqb (params_uri p) u); reflexivity.
Qed.

(** X5. After any sequence of [publishDiagnostics] events the map holds, for
    every uri, the list of the last event for that uri, and its old entry
    (or none) when no event named it. *)
Theorem publish_sequence_keeps_latest (evs : list PublishDiagnosticsParams)
    (dc : gmap string (list Diagnostic)) (u : string) :
  Runs.publishAll evs dc !! u
  = match Runs.lastFor u evs with
    | Some ds => Some ds
    | None => dc !! u
    end.
Proof.
  unfold Runs.publishAll. revert dc.
  induction evs as [|p evs IH]; intros dc; [reflexivity|].
  simpl. rewrite IH.
  unfold Runs.lastFor at 2. simpl. rewrite lastFor_from.
  destruct (Runs.lastFor u evs); [reflexivity|].
  unfold publishDiagnostics.
  destruct (String.eqb (params_uri p) u) eqn:E.
  - apply String.eqb_eq in E. subst u. apply lookup_insert_eq.
  - apply String.eqb_neq in E. apply lookup_insert_ne. exact E.
Qed.

End DiagnosticsMore.

(** ** The message list *)

Section MessageViewFacts.

Import MessageViews.

Context {MsgEmbed : Type}.

Local Abbreviation msg := (Diagnostics.InteractiveDiagnostic MsgEmbed).

Lemma compareEnds_le (a b : Diagnostics.Position) :
  (compareEnds a b <=? 0)%Z = true <-> endsBefore a b.
Proof.
  unfold compareEnds, endsBefore. rewrite Z.leb_le.
  destruct (Nat.eqb_spec (Diagnostics.p_line a) (Diagnostics.p_line b)); lia.
Qed.

Lemma compareEnds_total (a b : Diagnostics.Position) :
  (compareEnds a b <=? 0)%Z = false -> endsBefore b a.
Proof.
  unfold compareEnds, endsBefore. rewrite Z.leb_gt.
  destruct (Nat.eqb_spec (Diagnostics.p_line a) (Diagnostics.p_line b)); lia.
Qed.

Lemma compareEnds_strict (a b : Diagnostics.Position) :
  (compareEnds a b <=? 0)%Z = false ->
  (Diagnostics.p_line b =? Diagnostics.p_line a) &&
  (Diagnostics.p_character b =? Diagnostics.p_character a) = false.
Proof.
  unfold compareEnds. rewrite Z.leb_gt. intros H.
  destruct (Nat.eqb_spec (Diagnostics.p_line a) (Diagnostics.p_line b)) as [E|E].
  - rewrite E, Nat.eqb_refl. simpl. apply Nat.eqb_neq. lia.
  - apply andb_false_intro1. apply Nat.eqb_neq. lia.
Qed.

Lemma insert_perm (x : msg) (l : list msg) :
  Permutation (insert compareMessages x l) (x :: l).
Proof.
  induction l as [|y l IH]; simpl; [reflexivity|].
  destruct (compareMessages x y <=? 0)%Z; [reflexivity|].
  rewrite IH. apply perm_swap.
Qed.

Lemma insert_sorted (x : msg) (l : list msg) :
  Sorted (fun a b => endsBefore (endOf a) (endOf b)) l ->
  Sorted (fun a b => endsBefore (endOf a) (endOf b)) (insert compareMessages x l).
Proof.
  induction 1 as [|y l Hl IH Hy]; simpl.
  - repeat constructor.
  - destruct (compareMessages x y <=? 0)%Z eqn:E.
    + constructor; [constructor; assumption|].
      constructor. apply compareEnds_le. exact E.
    + constructor; [exact IH|].
      apply compareEnds_total in E.
      destruct l as [|z l]; simpl; [constructor; exact E|].
      destruct (compareMessages x z <=? 0)%Z; constructor; [exact E|].
      inversion Hy; assumption.
Qed.

Lemma insert_filter (p : Diagnostics.Position) (x : msg) (l : list msg) :
  List.filter (endsAt p) (insert compareMessages x l)
  = List.filter (endsAt p) (x :: l).
Proof.
  induction l as [|y l IH]; [reflexivity|].
  simpl insert. destruct (compareMessages x y <=? 0)%Z eqn:E; [reflexivity|].
  simpl in *. rewrite IH.
  destruct (endsAt p x) eqn:Ex; [|reflexivity].
  destruct (endsAt p y) eqn:Ey; [|reflexivity].
  exfalso. apply compareEnds_strict in E.
  unfold endsAt in Ex, Ey.
  apply andb_true_iff in Ex as [Ex1 Ex2]. apply andb_true_iff in Ey as [Ey1 Ey2].
  apply Nat.eqb_eq in Ex1, Ex2, Ey1, Ey2.
  rewrite Ey1, Ey2, <- Ex1, <- Ex2, !Nat.eqb_refl in E. discriminate E.
Qed.

(** X6. The views of the message list are the given messages, each once and
    with the uri attached, in the order of their end positions (line first,
    then character; [fullRange] when present, else [range]); messages that end
    at the same position keep the order in which they were given. *)
Theorem views_sorted_stable (u : string) (messages : list msg) :
  Permutation (map view_diag (views u messages)) messages /\
  Forall (fun v => view_uri v = u) (views u messages) /\
  Sorted (fun a b => endsBefore (endOf a) (endOf b))
         (map view_diag (views u messages)) /\
  (forall p, List.filter (endsAt p) (map view_diag (views u messages))
             = List.filter (endsAt p) messages).
Proof.
  unfold views. rewrite map_map. simpl. rewrite map_id.
  split; [|split; [|split]].
  - induction messages as [|m l IH]; [reflexivity|].
    simpl. rewrite insert_perm, IH. reflexivity.
  - apply Forall_forall. intros v Hv.
    apply list_elem_of_In, in_map_iff in Hv. destruct Hv as (m & <- & _).
    reflexivity.
  - induction messages as [|m l IH]; [constructor|].
    simpl. apply insert_sorted. exact IH.
  - intros p. induction messages as [|m l IH]; [reflexivity|].
    simpl sort. rewrite insert_filter. simpl. rewrite IH. reflexivity.
Qed.

End MessageViewFacts.

(** ** Go to definition *)

Lemma fetches_cached (os : list GoTo.Links) (s : GoTo.state) (loc : GoTo.Location) :
  GoTo.goToLoc s = Some loc ->
  GoTo.fetches os s = (repeat (Some loc) (length os), s).
Proof.
  intros Hs. induction os as [|o os IH]; [reflexivity|].
  simpl. unfold GoTo.fetchGoToLoc. rewrite Hs, IH. reflexivity.
Qed.

(** X7. In a sequence of calls of [fetchGoToLoc] on one tag: as long as no
    request has produced a location every call makes a request and returns
    [undefined], caching nothing (an answer without links and a failure are
    tried again, the failure being logged); the first answer with links
    makes every call from then on return the uri and selection range of its
    first link, and no further request is made. *)
Theorem goto_location_cached_after_first_hit
    (misses : list GoTo.Links) (l : GoTo.LocationLink)
    (ls : list GoTo.LocationLink) (later : list GoTo.Links) :
  forallb (fun o => negb (GoTo.hit o)) misses = true ->
  let loc := GoTo.mkLocation (GoTo.targetUri l) (GoTo.targetSelectionRange l) in
  fst (GoTo.fetches misses GoTo.initial) = repeat None (length misses) /\
  GoTo.goToLoc (snd (GoTo.fetches misses GoTo.initial)) = None /\
  GoTo.requests (snd (GoTo.fetches misses GoTo.initial)) = length misses /\
  fst (GoTo.fetches (misses ++ GoTo.Answered (Some (l :: ls)) :: later) GoTo.initial)
  = repeat None (length misses) ++ repeat (Some loc) (S (length later)) /\
  GoTo.requests
    (snd (GoTo.fetches (misses ++ GoTo.Answered (Some (l :: ls)) :: later)
            GoTo.initial))
  = S (length misses).
Proof.
  intros Hmiss loc.
  assert (Hgen : forall s, GoTo.goToLoc s = None ->
    fst (GoTo.fetches misses s) = repeat None (length misses) /\
    GoTo.goToLoc (snd (GoTo.fetches misses s)) = None /\
    GoTo.requests (snd (GoTo.fetches misses s)) = length misses + GoTo.requests s /\
    fst (GoTo.fetches (misses ++ GoTo.Answered (Some (l :: ls)) :: later) s)
    = repeat None (length misses) ++ repeat (Some loc) (S (length later)) /\
    GoTo.requests
      (snd (GoTo.fetches (misses ++ GoTo.Answered (Some (l :: ls)) :: later) s))
    = S (length misses + GoTo.requests s)).
  { induction misses as [|o os IH]; intros s Hs.
    - simpl. unfold GoTo.fetchGoToLoc. rewrite Hs. simpl.
      erewrite fetches_cached by reflexivity. simpl. auto.
    - simpl in Hmiss. apply andb_true_iff in Hmiss as [Ho Hos].
      specialize (IH Hos).
      assert (Hstep : exists s', GoTo.fetchGoToLoc o s = (None, s') /\
                                 GoTo.goToLoc s' = None /\
                                 GoTo.requests s' = S (GoTo.requests s)).
      { unfold GoTo.fetchGoToLoc. rewrite Hs.
        destruct o as [[[|l0 ls0]|]|]; simpl in Ho; try discriminate;
          eexists; repeat split. }
      destruct Hstep as (s' & Hf & Hs' & Hr').
      specialize (IH s' Hs'). destruct IH as (I1 & I2 & I3 & I4 & I5).
      simpl. rewrite Hf.
      destruct (GoTo.fetches os s') as [rs1 s1].
      destruct (GoTo.fetches (os ++ _ :: later) s') as [rs2 s2].
      simpl in *. rewrite I1, I2, I3, I4, I5, Hr'.
      repeat split; try reflexivity; lia. }
  destruct (Hgen GoTo.initial eq_refl) as (H1 & H2 & H3 & H4 & H5).
  simpl in H3, H5. rewrite Nat.add_0_r in H3, H5. auto.
Qed.

Lemma goto_location_cached_after_first_hit_witness :
  fst (GoTo.fetches
         [GoTo.Refused; GoTo.Answered (Some []);
          GoTo.Answered (Some [Runs.link]); GoTo.Refused]
         GoTo.initial)
  = [None; None;
     Some (GoTo.mkLocation "b.lean"
             (Diagnostics.mkRange (Diagnostics.mkPosition 1 4)
                                  (Diagnostics.mkPosition 1 9)));
     Some (GoTo.mkLocation "b.lean"
             (Diagnostics.mkRange (Diagnostics.mkPosition 1 4)
                                  (Diagnostics.mkPosition 1 9)))].
Proof.
  apply (goto_location_cached_after_first_hit
           [GoTo.Refused; GoTo.Answered (Some [])] Runs.link [] [GoTo.Refused]).
  reflexivity.
Defined.

(** ** The throttle hook, continued *)

Section ThrottleMore.

Import Throttle.

Context {A : Type}.



Lemma fires_before_deadline (cb : option A) (t d k : nat)
    (st : list (nat * A)) (rn : nat) :
  t < d ->
  run {| the_hook := {| waiting := true; callbackRef := cb;
                        timers := [d]; now := t |};
         started := st; running := rn |}
      (repeat Fire k)
  = {| the_hook := {| waiting := true; callbackRef := cb;
                      timers := [d]; now := t |};
       started := st; running := rn |}.
Proof.
  intros Hlt. induction k as [|k IH]; [reflexivity|].
  change (run ?s (repeat Fire (S k))) with (run (step s Fire) (repeat Fire k)).
  replace (step _ Fire) with
    {| the_hook := {| waiting := true; callbackRef := cb;
                      timers := [d]; now := t |};
       started := st; running := rn |}; [exact IH|].
  simpl. unfold fire. simpl.
  destruct (d <=? t) eqn:E; [apply Nat.leb_le in E; lia|reflexivity].
Qed.

(** X8. The action is never invoked early: after a call that starts a wait
    of [ms], as long as fewer than [ms] milliseconds have passed, no number of
    turns of the event loop invokes it; the wait stays pending. *)
Theorem no_invocation_before_interval (ms t0 d k : nat) (es : list (event A)) :
  uniform ms es ->
  waiting (the_hook (run (start t0) es)) = false ->
  d < ms ->
  let s := run (start t0) es in
  let s' := run s (Call ms :: Advance d :: repeat Fire k) in
  started s' = started s /\ running s' = running s /\
  waiting (the_hook s') = true /\
  timers (the_hook s') = [now (the_hook s) + ms].
Proof.
  intros Hu Hidle Hd s s'.
  pose proof (paced_run ms es (start t0) Hu (paced_start ms t0)) as (_ & _ & Hw).
  fold s in Hw, Hidle. rewrite Hidle in Hw.
  unfold s'.
  change (run s (Call ms :: Advance d :: repeat Fire k))
    with (run (step (step s (Call ms)) (Advance d)) (repeat Fire k)).
  destruct s as [[w cr ts t] st rn]. simpl in *. subst w ts.
  unfold trigger, advance. simpl.
  rewrite fires_before_deadline by lia. simpl. auto.
Qed.


End ThrottleMore.

Lemma no_invocation_before_interval_witness :
  Throttle.started
    (Throttle.run (Throttle.run (Throttle.start 0) [Throttle.Render "a"])
       (Throttle.Call 50 :: Throttle.Advance 49 :: repeat Throttle.Fire 3))
  = Throttle.started (Throttle.run (Throttle.start 0) [Throttle.Render "a"]).
Proof.
  apply (no_invocation_before_interval 50 0 49 3 [Throttle.Render "a"]).
  - repeat constructor.
  - reflexivity.
  - lia.
Defined.


(** ** The panel *)

(** X10. The error line is never shown together with the tactic state, the
    expected type or the messages; and when the closing line ("No info
    found." or the paused hint) is shown, nothing else is. *)
Theorem panel_sections_exclusive (dp : Info.DisplayProps) (st : InfoStatus.t)
    (messages : nat) :
  let v := Panel.InfoDisplay dp st messages in
  (Panel.v_error v = true ->
   Panel.v_goals v = false /\ Panel.v_termGoal v = false /\
   Panel.v_messages v = false) /\
  (Panel.v_nothing v = true ->
   Panel.v_error v = false /\ Panel.v_goals v = false /\
   Panel.v_termGoal v = false /\ Panel.v_widgets v = false /\
   Panel.v_messages v = false).
Proof.
  destruct dp as [p g tg e rs uw]. simpl.
  unfold Panel.hasError, Panel.hasGoals, Panel.hasTermGoal, Panel.hasMessages,
    Panel.nothingToShow, Panel.hasWidget. simpl.
  destruct st, g, tg, (Panel.truthy e), (messages =? 0), uw as [[|w ws]|];
    simpl; intuition congruence.
Qed.

Lemma panel_sections_exclusive_witness :
  Panel.v_goals
    (Panel.InfoDisplay
       (Info.mkDisplay Samples.P1 (Some ["g"]) None (Some "Error fetching goals: x")
          10 None)
       InfoStatus.error 2) = false /\
  Panel.v_termGoal
    (Panel.InfoDisplay
       (Info.mkDisplay Samples.P1 (Some ["g"]) None (Some "Error fetching goals: x")
          10 None)
       InfoStatus.error 2) = false /\
  Panel.v_messages
    (Panel.InfoDisplay
       (Info.mkDisplay Samples.P1 (Some ["g"]) None (Some "Error fetching goals: x")
          10 None)
       InfoStatus.error 2) = false.
Proof.
  apply (proj1 (panel_sections_exclusive
                  (Info.mkDisplay Samples.P1 (Some ["g"]) None
                     (Some "Error fetching goals: x") 10 None)
                  InfoStatus.error 2)).
  reflexivity.
Defined.

(** ** The controller, continued *)

Section InfoMore.

Import Info.

Variable useRpcSessionAtPos : DocumentPosition -> RpcSessionAtPos.
Variable mapRpcError : Z -> string -> string.

Local Abbreviation closure := (Info.closure useRpcSessionAtPos).
Local Abbreviation InfoAux := (Info.InfoAux useRpcSessionAtPos).
Local Abbreviation step := (Info.step useRpcSessionAtPos mapRpcError).
Local Abbreviation run := (Info.run useRpcSessionAtPos mapRpcError).
Local Abbreviation consistent := (Info.consistent useRpcSessionAtPos).
Local Abbreviation mount := (Info.mount useRpcSessionAtPos).

Lemma reachable_consistent (p : DocumentPosition) (b : bool) (t0 : nat)
    (es : list event) :
  consistent (run (mount p b t0) es).
Proof. apply consistent_run. apply consistent_mount. Qed.

(** What one handler can do to the snapshot and to the record of requests. *)
Lemma step_effects (s : state) (e : event) :
  consistent s ->
  (displayProps (step s e) = displayProps s \/
   (exists id o, e = Settled id o) /\ dp_pos (displayProps (step s e)) = pos s) /\
  (issued (step s e) = issued s \/
   e = TimerDue /\ issued (step s e) = (nextId s, pos s) :: issued s).
Proof.
  intros (Hcb & Hsh & _ & _).
  destruct s as [p b st g tg uw er rs dp sh h pd n iss].
  unfold Info.closure in Hcb. simpl in Hcb, Hsh. subst sh.
  destruct e as [q|b'| |d| |id o]; simpl.
  - destruct (decide (q = p)); simpl; auto.
  - destruct (decide (b' = b)); simpl; auto.
  - auto.
  - auto.
  - destruct (Throttle.fire h) as [h' [c|]] eqn:Ef; simpl; [|auto].
    split; [auto|]. right. split; [reflexivity|].
    assert (Hc : c = mkClosure p (useRpcSessionAtPos p) (interval b)).
    { unfold Throttle.fire in Ef.
      destruct (Throttle.takeDue _ _); simpl in Ef; inversion Ef; congruence. }
    subst c. reflexivity.
  - destruct (lookupRequest id pd) as [c|]; simpl; [|auto].
    destruct o as [g' tg' uw'|ex]; simpl.
    + split; [right; split; [eauto|reflexivity]|auto].
    + destruct (contentModified ex); simpl; [auto|].
      destruct (errorString mapRpcError ex); simpl; [|auto].
      split; [right; split; [eauto|reflexivity]|auto].
Qed.

(** X11. A cursor move, a change of the processing flag, a click on
    "update", the passing of time and a timer expiry never change the
    displayed snapshot: it is replaced only when the requests of an update
    settle, and the position it then shows is the current one. *)
Theorem snapshot_changes_only_on_reply (p : DocumentPosition) (b : bool)
    (t0 : nat) (es : list event) (e : event) :
  let s := run (mount p b t0) es in
  match e with
  | Settled _ _ =>
      displayProps (step s e) = displayProps s \/
      dp_pos (displayProps (step s e)) = pos s
  | _ => displayProps (step s e) = displayProps s
  end.
Proof.
  intros s.
  destruct (step_effects s e (reachable_consistent p b t0 es))
    as [[H|[[id [o He]] H]] _]; destruct e; auto; discriminate.
Qed.


(** X13. A rejection that is neither content-modified nor suppressed is
    reported and not retried: the status becomes [error], the error text is
    the message prefixed with "Error fetching goals: ", the snapshot is
    rebuilt with that text while keeping the goals, term goal, widgets and
    session stored before, no request is sent and no wait is started. *)
Theorem reported_error_commits (s : state) (id : nat) (c : Closure)
    (ex : Js.Thrown) (e : string) :
  lookupRequest id (pending s) = Some c ->
  contentModified ex = false ->
  errorString mapRpcError ex = Some e ->
  let s' := step s (Settled id (RejectedWith ex)) in
  let text := String.append "Error fetching goals: " e in
  status s' = InfoStatus.error /\
  error s' = Some text /\
  displayProps s'
  = {| dp_pos := pos s; dp_goals := goals s; dp_termGoal := termGoal s;
       dp_error := Some text; dp_rpcSess := rpcSess s;
       dp_userWidgets := userWidgets s |} /\
  issued s' = issued s /\
  Throttle.timers (throttle s') = Throttle.timers (throttle s) /\
  Throttle.waiting (throttle s') = Throttle.waiting (throttle s).
Proof.
  intros Hl Hcm Hes s' text. unfold s'.
  rewrite (step_settled _ _ s id c _ Hl).
  unfold Info.resume. rewrite Hcm, Hes.
  repeat split; reflexivity.
Qed.

End InfoMore.

Section InfoReach.

Import Info.

Variable useRpcSessionAtPos : DocumentPosition -> RpcSessionAtPos.
Variable mapRpcError : Z -> string -> string.

Local Abbreviation closure := (Info.closure useRpcSessionAtPos).
Local Abbreviation step := (Info.step useRpcSessionAtPos mapRpcError).
Local Abbreviation run := (Info.run useRpcSessionAtPos mapRpcError).
Local Abbreviation consistent := (Info.consistent useRpcSessionAtPos).
Local Abbreviation mount := (Info.mount useRpcSessionAtPos).



Lemma tracked_step (s : state) (e : event) :
  Runs.tracked s -> Runs.tracked (step s e).
Proof.
  intros [Hst Hpd].
  destruct s as [p b st g tg uw er rs dp sh h pd n iss].
  unfold Runs.tracked in *. simpl in *.
  destruct e as [q|b'| |d| |id o]; simpl.
  - destruct (decide (q = p)), sh; simpl; auto.
  - destruct (decide (b' = b)), sh; simpl; auto.
  - auto.
  - auto.
  - destruct (Throttle.fire h) as [h' [c|]]; simpl; [|auto].
    destruct sh; simpl; (split; [split; discriminate|discriminate]).
  - destruct (lookupRequest id pd) as [c|] eqn:El; simpl; [|auto].
    assert (Hiss : iss <> []).
    { intros E. rewrite (Hpd E) in El. discriminate El. }
    assert (Hnl : st <> InfoStatus.loading) by (intros E; apply Hiss, Hst, E).
    destruct o as [g' tg' uw'|ex]; simpl.
    + split; [split; [discriminate|contradiction]|contradiction].
    + destruct (contentModified ex); simpl.
      * destruct sh; simpl; (split; [exact Hst|contradiction]).
      * destruct (errorString mapRpcError ex); simpl.
        -- split; [split; [discriminate|contradiction]|contradiction].
        -- destruct sh; simpl; (split; [exact Hst|contradiction]).
Qed.

(** X15. Whatever happens to a mounted controller, its status is [loading]
    exactly as long as it has started no update: the first timer expiry
    leaves [loading] for good. *)
Theorem loading_until_first_update (p : DocumentPosition) (b : bool)
    (t0 : nat) (es : list event) :
  status (run (mount p b t0) es) = InfoStatus.loading <->
  issued (run (mount p b t0) es) = [].
Proof.
  assert (H : Runs.tracked (run (mount p b t0) es)).
  { generalize (mount p b t0), (conj (conj (fun _ => eq_refl) (fun _ => eq_refl))
                                     (fun _ => eq_refl)
                                : Runs.tracked (mount p b t0)).
    induction es as [|e es IH]; intros s Hs; [exact Hs|].
    apply IH. apply tracked_step. exact Hs. }
  apply H.
Qed.

Lemma takeDue_Forall (P : nat -> Prop) (t : nat) (ds rest : list nat) :
  Throttle.takeDue t ds = Some rest -> Forall P ds -> Forall P rest.
Proof.
  revert rest. induction ds as [|d ds IH]; intros rest; simpl; [discriminate|].
  intros H Hds. apply Forall_cons_1 in Hds as [Hd Hds].
  destruct (d <=? t); [inversion H; subst; exact Hds|].
  destruct (Throttle.takeDue t ds) as [r|]; [|discriminate].
  inversion H; subst. constructor; [exact Hd|]. apply IH; auto.
Qed.

Lemma lookupRequest_In (id : nat) (c : Closure) (l : list (nat * Closure)) :
  lookupRequest id l = Some c -> In (id, c) l.
Proof.
  induction l as [|[i c'] l IH]; simpl; [discriminate|].
  destruct (Nat.eqb_spec i id) as [->|_]; [intros [= ->]; auto|auto].
Qed.

Lemma dropRequest_Forall (P : nat * Closure -> Prop) (id : nat)
    (l : list (nat * Closure)) :
  Forall P l -> Forall P (dropRequest id l).
Proof.
  induction 1 as [|[i c'] l Hi Hl IH]; simpl; [constructor|].
  destruct (i =? id); [exact Hl|constructor; assumption].
Qed.

Lemma interval_bound (b : bool) : interval b <= 500.
Proof. destruct b; simpl; lia. Qed.

Lemma prompt_trigger (ms : nat) (h : Throttle.hook Closure) :
  ms <= 500 -> Runs.prompt 500 h -> Runs.prompt 500 (Throttle.trigger ms h).
Proof.
  intros Hms Hp. unfold Runs.prompt, Throttle.trigger in *.
  destruct (Throttle.waiting h); simpl; [exact Hp|].
  apply Forall_app. split; [exact Hp|]. constructor; [lia|constructor].
Qed.

Lemma timely_step (s : state) (e : event) :
  consistent s -> Runs.timely s -> Runs.timely (step s e).
Proof.
  intros (Hcb & Hsh & _ & _) [Hp Hms].
  destruct s as [p b st g tg uw er rs dp sh h pd n iss].
  unfold Info.closure in Hcb. unfold Runs.timely in *. simpl in *. subst sh.
  pose proof (interval_bound b) as Hb.
  destruct e as [q|b'| |d| |id o]; simpl.
  - destruct (decide (q = p)); simpl; [auto|].
    split; [|exact Hms]. apply prompt_trigger; [apply interval_bound|exact Hp].
  - destruct (decide (b' = b)); simpl; [auto|].
    split; [|exact Hms]. apply prompt_trigger; [apply interval_bound|exact Hp].
  - split; [|exact Hms]. apply prompt_trigger; [apply interval_bound|exact Hp].
  - split; [|exact Hms]. unfold Runs.prompt in *. simpl.
    eapply Forall_impl; [exact Hp|]. intros x Hx. simpl in *. lia.
  - unfold Throttle.fire.
    destruct (Throttle.takeDue (Throttle.now h) (Throttle.timers h))
      as [rest|] eqn:Ed; simpl.
    + assert (Hrest : Forall (fun d => d <= Throttle.now h + 500) rest)
        by (eapply takeDue_Forall; [exact Ed|exact Hp]).
      rewrite Hcb. simpl. split; [exact Hrest|].
      apply Forall_app. split; [exact Hms|]. constructor; [exact Hb|constructor].
    + auto.
  - destruct (lookupRequest id pd) as [c|] eqn:El; simpl; [|auto].
    assert (Hc : c_ms c <= 500).
    { apply lookupRequest_In in El.
      rewrite List.Forall_forall in Hms. apply (Hms _ El). }
    assert (Hdrop : Forall (fun r => c_ms (snd r) <= 500) (dropRequest id pd))
      by (apply dropRequest_Forall; exact Hms).
    destruct o as [g' tg' uw'|ex]; simpl; [auto|].
    destruct (contentModified ex); simpl.
    + split; [|exact Hdrop]. apply prompt_trigger; assumption.
    + destruct (errorString mapRpcError ex); simpl; auto.
Qed.

Lemma reachable_timely (p : DocumentPosition) (b : bool) (t0 : nat)
    (es : list event) :
  Runs.timely (run (mount p b t0) es).
Proof.
  assert (H0 : consistent (mount p b t0) /\ Runs.timely (mount p b t0)).
  { split; [apply consistent_mount|].
    split; [|constructor].
    unfold Runs.prompt. simpl. constructor; [|constructor].
    pose proof (interval_bound b). lia. }
  revert H0. generalize (mount p b t0).
  induction es as [|e es IH]; intros s [Hc Ht]; [exact Ht|].
  apply IH. split; [apply consistent_step; exact Hc|apply timely_step; assumption].
Qed.

(** X16. A cursor move is always served: from any state of a mounted
    controller, once the cursor has moved to a new position, the timer expiry
    that follows 500 ms later sends one request for that position, whatever
    was pending or in flight; the snapshot is untouched meanwhile. *)
Theorem cursor_move_is_served (p0 : DocumentPosition) (b : bool) (t0 : nat)
    (es : list event) (p : DocumentPosition) :
  p <> pos (run (mount p0 b t0) es) ->
  let s := run (mount p0 b t0) es in
  let s' := run s [CursorMoved p; Elapsed 500; TimerDue] in
  issued s' = (nextId s, p) :: issued s /\
  status s' = InfoStatus.updating /\
  displayProps s' = displayProps s.
Proof.
  intros Hp s s'.
  pose proof (reachable_consistent useRpcSessionAtPos mapRpcError p0 b t0 es) as Hc.
  pose proof (reachable_timely p0 b t0 es) as Ht. fold s in Hc, Ht, Hp.
  set (s1 := step s (CursorMoved p)).
  assert (Hc1 : consistent s1) by (apply consistent_step; exact Hc).
  assert (Ht1 : Runs.timely s1) by (apply timely_step; assumption).
  assert (H1 : pos s1 = p /\ nextId s1 = nextId s /\ issued s1 = issued s /\
               displayProps s1 = displayProps s /\
               Throttle.waiting (throttle s1) = true).
  { unfold s1. simpl. destruct (decide (p = pos s)); [contradiction|].
    destruct Hc as (_ & Hsh & _). unfold Info.InfoAux. simpl. rewrite Hsh.
    simpl. unfold Throttle.trigger. simpl.
    destruct (Throttle.waiting (throttle s)) eqn:Ew; simpl; auto. }
  destruct H1 as (Hpos1 & Hn1 & Hiss1 & Hdp1 & Hw1).
  set (s2 := step s1 (Elapsed 500)).
  assert (Hc2 : consistent s2) by (apply consistent_step; exact Hc1).
  assert (Hdue : Throttle.takeDue (Throttle.now (throttle s2))
                   (Throttle.timers (throttle s2)) = Some []).
  { destruct Hc1 as (_ & _ & Htm & _). rewrite Hw1 in Htm.
    destruct Htm as [d Hd]. destruct Ht1 as [Hpr _].
    unfold Runs.prompt in Hpr. rewrite Hd in Hpr.
    apply Forall_cons_1 in Hpr as [Hle _].
    unfold s2. simpl. rewrite Hd. simpl.
    destruct (d <=? Throttle.now (throttle s1) + 500) eqn:E; [reflexivity|].
    apply Nat.leb_gt in E. lia. }
  destruct (timer_starts_update useRpcSessionAtPos mapRpcError s2 [] Hc2 Hdue)
    as (Hst3 & Hiss3 & _ & _ & _ & _ & Hdp3 & _).
  change s' with (step s2 TimerDue).
  rewrite Hst3, Hiss3, Hdp3.
  unfold s2. simpl. rewrite Hn1, Hpos1, Hiss1, Hdp1. auto.
Qed.

(** X17. A successful update stores its results and sets [ready] but leaves
    the error cell alone, so the text of an earlier failure stays in the
    snapshot; it is not displayed (the status is not [error]), and if the
    update found nothing and there are no messages the panel shows nothing at
    all, not even the closing line. *)
Theorem success_keeps_old_error (s : state) (id : nat) (c : Closure)
    (e : string) (g : option InteractiveGoals) (t : option InteractiveGoal)
    (w : option UserWidgets) :
  lookupRequest id (pending s) = Some c ->
  error s = Some e ->
  String.eqb e "" = false ->
  status (step s (Settled id (Fulfilled g t w))) = InfoStatus.ready /\
  dp_error (displayProps (step s (Settled id (Fulfilled g t w)))) = Some e /\
  dp_goals (displayProps (step s (Settled id (Fulfilled g t w)))) = g /\
  Panel.InfoDisplay
    (displayProps (step s (Settled id (Fulfilled None None None)))) 
    (status (step s (Settled id (Fulfilled None None None)))) 0
  = Panel.mkVisible false false false false false false.
Proof.
  intros Hl He Hne.
  rewrite !(step_settled _ _ s id c _ Hl). simpl.
  repeat split; try assumption.
  unfold Panel.InfoDisplay, Panel.hasError, Panel.hasGoals, Panel.hasTermGoal,
    Panel.hasMessages, Panel.nothingToShow, Panel.hasWidget. simpl.
  rewrite He. simpl. rewrite Hne. reflexivity.
Qed.

End InfoReach.

(** ** The controller at concrete inputs, continued *)

Lemma reported_error_commits_witness :
  Info.status
    (Info.step Samples.sessionAt Samples.rpcMessage Samples.requested
       (Info.Settled 0 (Info.RejectedWith (Js.Str "server stopped"))))
  = InfoStatus.error.
Proof.
  pose proof (reported_error_commits Samples.sessionAt Samples.rpcMessage
                Samples.requested 0 (Info.mkClosure Samples.P1 10 50)
                (Js.Str "server stopped") "server stopped"
                requested_pending eq_refl eq_refl) as H.
  cbv zeta in H. destruct H as (H & _). exact H.
Defined.

Lemma moved_away :
  Samples.P2
  <> Info.pos
       (Info.run Samples.sessionAt Samples.rpcMessage
          (Info.mount Samples.sessionAt Samples.P1 false 0)
          [Info.Elapsed 50; Info.TimerDue]).
Proof. intros H. vm_compute in H. discriminate H. Qed.

Lemma cursor_move_is_served_witness :
  Info.status
    (Info.run Samples.sessionAt Samples.rpcMessage
       (Info.run Samples.sessionAt Samples.rpcMessage
          (Info.mount Samples.sessionAt Samples.P1 false 0)
          [Info.Elapsed 50; Info.TimerDue])
       [Info.CursorMoved Samples.P2; Info.Elapsed 500; Info.TimerDue])
  = InfoStatus.updating.
Proof.
  pose proof (cursor_move_is_served Samples.sessionAt Samples.rpcMessage
                Samples.P1 false 0 [Info.Elapsed 50; Info.TimerDue] Samples.P2
                moved_away) as H.
  cbv zeta in H. destruct H as (_ & H & _). exact H.
Defined.

Lemma retrying_pending :
  Info.lookupRequest 1 (Info.pending Runs.retrying)
  = Some (Info.mkClosure Samples.P1 10 50).
Proof. vm_compute. reflexivity. Qed.

Lemma retrying_error :
  Info.error Runs.retrying = Some "Error fetching goals: server stopped".
Proof. vm_compute. reflexivity. Qed.

Lemma success_keeps_old_error_witness :
  Info.status
    (Info.step Samples.sessionAt Samples.rpcMessage Runs.retrying
       (Info.Settled 1 (Info.Fulfilled None None None)))
  = InfoStatus.ready.
Proof.
  pose proof (success_keeps_old_error Samples.sessionAt Samples.rpcMessage
                Runs.retrying 1 (Info.mkClosure Samples.P1 10 50)
                "Error fetching goals: server stopped" None None None
                retrying_pending retrying_error eq_refl) as H.
  destruct H as (H & _). exact H.
Defined.

(** ** Diagnostics, continued *)

(** X18. The thunk of [AllMessages] writes to the console exactly when the
    interactive request was made and rejected with anything but the
    content-modified code (a rejection without a code included); a
    content-modified rejection is swallowed silently, and in both cases the
    raw list is what it resolves to. *)
Theorem content_modified_fetch_is_silent {MsgEmbed : Type}
    (hasWidgetsV1 : bool) (fetch : Diagnostics.Fetched MsgEmbed)
    (diags0 : list Diagnostics.Diagnostic) :
  (snd (Diagnostics.iDiags0 hasWidgetsV1 fetch diags0) = true <->
   hasWidgetsV1 = true /\
   exists code, fetch = Diagnostics.Rejected code /\
                code <> Some Diagnostics.ContentModified) /\
  (forall code,
      fst (Diagnostics.iDiags0 hasWidgetsV1
             (Diagnostics.Rejected code : Diagnostics.Fetched MsgEmbed) diags0)
      = map Diagnostics.toInteractive diags0).
Proof.
  split.
  - unfold Diagnostics.iDiags0, Diagnostics.logsError.
    destruct hasWidgetsV1; simpl.
    + destruct fetch as [ds|[c|]]; simpl.
      * destruct (0 <? length ds); simpl; split;
          [discriminate|intros (_ & code & H & _); discriminate H
          |discriminate|intros (_ & code & H & _); discriminate H].
      * destruct (Z.eqb_spec c Diagnostics.ContentModified) as [->|Hne]; simpl.
        -- split; [discriminate|].
           intros (_ & code & H & Hc). inversion H; subst. contradiction.
        -- split; [|reflexivity]. intros _. split; [reflexivity|].
           exists (Some c). split; [reflexivity|congruence].
      * split; [|reflexivity]. intros _. split; [reflexivity|].
        exists None. split; [reflexivity|discriminate].
    + split; [discriminate|intros (H & _); discriminate H].
  - intros code. unfold Diagnostics.iDiags0. destruct hasWidgetsV1; reflexivity.
Qed.
